(** * OCR page pipeline: legibility gate and heuristic table reconstruction

    A shallow embedding of [src/Tesseract_ocr.py] (module [TesseractOcr]), of
    its predecessor [ocrv1.py] (module [OcrV1]), of the summaries their
    script parts print (modules [TesseractMain], [OcrV1Main]) and of
    [src/ollamaocr.py] (module [OllamaOcr]).

    Conventions of the embedding.
    - Pixel coordinates ([left], [top], [height]) are Python/numpy integers:
      [Z].
    - Python floats are idealised as exact rationals ([Q]): column centres
      after an averaging step, OCR confidences, and the constant [0.8] of the
      row test.  No rounding is modelled.
    - A Python [str] is a [string]; its characters are the code points below
      256.
    - A page image is opaque to the program: it is represented by what the
      OCR collaborator returns for it in its two modes.
    - [try]/[except Exception] is an explicit [result] type. *)

From Stdlib Require Import ZArith QArith Qabs String Ascii Bool Lia.
From Stdlib Require Import DecimalString DecimalNat Permutation Sorted FinFun.
From stdpp Require Import base list.

Local Open Scope string_scope.
Local Open Scope Z_scope.

(** ** Exceptions *)

Inductive exception : Type :=
| OcrEngineError      (* pytesseract / Tesseract failed on the image *)
| ValueError          (* np.argmin of an empty sequence *)
| OSError             (* os.makedirs / open / to_csv failed *)
| AttributeError      (* the .str accessor on a column that holds no string *)
| KeyError.           (* a DataFrame column that does not exist *)

Inductive result (A : Type) : Type :=
| Ok (a : A)
| Raised (e : exception).

Arguments Ok {A} a.
Arguments Raised {A} e.

Definition bind {A B : Type} (m : result A) (k : A -> result B) : result B :=
  match m with
  | Ok a => k a
  | Raised e => Raised e
  end.

Notation "'let*' x ':=' m 'in' k" := (bind m (fun x => k))
  (at level 10, x name, m at level 100, k at level 200).

Fixpoint mapM {A B : Type} (f : A -> result B) (l : list A) : result (list B) :=
  match l with
  | [] => Ok []
  | a :: r => let* b := f a in let* bs := mapM f r in Ok (b :: bs)
  end.

(** ** Python string helpers *)

Module PyStr.

(** [str.isspace] on one character (code points below 256). *)
Definition is_space (c : ascii) : bool :=
  let n := nat_of_ascii c in
  ((9 <=? n) && (n <=? 13) || (28 <=? n) && (n <=? 32)
   || (n =? 133) || (n =? 160))%nat.

Fixpoint lstrip (s : string) : string :=
  match s with
  | EmptyString => EmptyString
  | String c s' => if is_space c then lstrip s' else s
  end.

Fixpoint rstrip (s : string) : string :=
  match s with
  | EmptyString => EmptyString
  | String c s' =>
      match rstrip s' with
      | EmptyString => if is_space c then EmptyString else String c EmptyString
      | r => String c r
      end
  end.

(** [s.strip()] *)
Definition strip (s : string) : string := rstrip (lstrip s).

Definition starts_word (s : string) : bool :=
  match s with
  | EmptyString => false
  | String c _ => negb (is_space c)
  end.

(** [s.split()]: the maximal runs of non-whitespace characters. *)
Fixpoint split (s : string) : list string :=
  match s with
  | EmptyString => []
  | String c s' =>
      if is_space c then split s'
      else if starts_word s' then
        match split s' with
        | w :: ws => String c w :: ws
        | [] => [String c EmptyString]
        end
      else String c EmptyString :: split s'
  end.

(** [sep.join(l)] *)
Definition join (sep : string) (l : list string) : string := String.concat sep l.

(** Truthiness of a string: non-empty. *)
Definition truthy (s : string) : bool :=
  match s with
  | EmptyString => false
  | String _ _ => true
  end.

(** [f'{n}'] for a non-negative integer. *)
Definition str_of_nat (n : nat) : string := NilEmpty.string_of_uint (Nat.to_uint n).

End PyStr.

(** ** Whole-page text clean-up (the same expression in both files) *)

(** [cleaned_text = ' '.join(text.split()).strip()] *)
Definition clean_text (text : string) : string :=
  PyStr.strip (PyStr.join " " (PyStr.split text)).

(** Comparison of rationals as a boolean: [a < b]. *)
Definition Qlt_bool (a b : Q) : bool := negb (Qle_bool b a).

(** ** Tesseract_ocr.py *)

Module TesseractOcr.

(** *** Configuration *)

Definition MIN_TEXT_LENGTH_FOR_LEGIBILITY : nat := 50.
Definition TABLE_CONFIDENCE_THRESHOLD : Q := 70.
Definition COLUMN_TOLERANCE : Z := 15.

(** *** Data *)

(** One row of the frame returned by [pytesseract.image_to_data]:
    [text] is [None] where pandas holds NaN. *)
Record OcrRow : Type := mkOcrRow {
  conf : Q;
  text : option string;
  left : Z;
  top : Z;
  height : Z
}.

(** A row of the frame once the NaN texts are filtered out, with the
    [column_idx] column that the assignment pass fills in. *)
Record Word : Type := mkWord {
  w_text : string;
  w_left : Z;
  w_top : Z;
  w_height : Z;
  column_idx : Z
}.

(** What the OCR collaborator yields for a page image.  [text_is_str] is
    the dtype pandas gave the [text] column of the frame: true when the
    column holds strings (object dtype), false when no cell of it is a
    string and the column was read as numbers. *)
Record PageImage : Type := mkPageImage {
  image_to_string : result string;
  image_to_data : result (list OcrRow);
  text_is_str : bool
}.

(** [pd.DataFrame(table_rows_padded, columns=column_names)] *)
Record DataFrame : Type := mkDataFrame {
  columns : list string;
  rows : list (list string)
}.

(** *** Filtering and reading order *)

(** [data[data.conf > TABLE_CONFIDENCE_THRESHOLD]], [data[data.text.notna()]],
    [data[data.text.str.strip() != '']], one after the other. *)
Definition filter_conf (data : list OcrRow) : list OcrRow :=
  List.filter (fun r => Qlt_bool TABLE_CONFIDENCE_THRESHOLD (conf r)) data.

Definition notna (r : OcrRow) : list Word :=
  match text r with
  | Some s => [mkWord s (left r) (top r) (height r) (-1)]
  | None => []
  end.

Definition filter_notna (data : list OcrRow) : list Word :=
  concat (map notna data).

Definition filter_nonblank (data : list Word) : list Word :=
  List.filter (fun w => PyStr.truthy (PyStr.strip (w_text w))) data.

(** Key order of [sort_values(by=['top', 'left'])]. *)
Definition reading_le (a b : Word) : bool :=
  (w_top a <? w_top b) || ((w_top a =? w_top b) && (w_left a <=? w_left b)).

Fixpoint insert_sorted (w : Word) (l : list Word) : list Word :=
  match l with
  | [] => [w]
  | x :: r => if reading_le w x then w :: l else x :: insert_sorted w r
  end.

(** [data.sort_values(by=['top', 'left']).reset_index(drop=True)]:
    a stable sort on the key (top, left). *)
Definition sort_values (data : list Word) : list Word :=
  fold_right insert_sorted [] data.

(** *** Column inference *)

(** [abs(row_data['left'] - center) <= COLUMN_TOLERANCE] *)
Definition within_tolerance (left : Z) (center : Q) : bool :=
  Qle_bool (Qabs (inject_Z left - center)) (inject_Z COLUMN_TOLERANCE).

(** The inner [for j, center in enumerate(column_centers)] loop: the first
    centre within tolerance of [left] is overwritten and the scan stops.
    [n] is [len(column_centers)], which the update uses as its weight.
    [None] stands for [found_bin = False]. *)
Fixpoint refine_bin (n : Z) (left : Z) (column_centers : list Q) : option (list Q) :=
  match column_centers with
  | [] => None
  | center :: rest =>
      if within_tolerance left center
      then Some ((center * inject_Z n + inject_Z left) / (inject_Z n + 1) :: rest)%Q
      else option_map (cons center) (refine_bin n left rest)
  end.

(** One iteration of the clustering loop over [data.iterrows()]. *)
Definition cluster_step (column_centers : list Q) (row_data : Word) : list Q :=
  match refine_bin (Z.of_nat (length column_centers)) (w_left row_data) column_centers with
  | Some column_centers' => column_centers'
  | None => column_centers ++ [inject_Z (w_left row_data)]
  end.

Definition cluster (data : list Word) : list Q :=
  fold_left cluster_step data [].

(** Python's [int(x)] on a float: truncation towards zero. *)
Definition py_int (x : Q) : Z := Z.quot (Qnum x) (Z.pos (Qden x)).

(** [int(x / COLUMN_TOLERANCE) * COLUMN_TOLERANCE] *)
Definition quantize (x : Q) : Z :=
  py_int (x / inject_Z COLUMN_TOLERANCE) * COLUMN_TOLERANCE.

Fixpoint set_insert (z : Z) (l : list Z) : list Z :=
  match l with
  | [] => [z]
  | x :: r =>
      if z <? x then z :: l
      else if z =? x then l
      else x :: set_insert z r
  end.

(** [sorted(list(set(l)))] *)
Definition sorted_set (l : list Z) : list Z := fold_right set_insert [] l.

(** Lines 80-81: quantise, deduplicate and sort; then once more. *)
Definition refine_centers (column_centers : list Q) : list Z :=
  sorted_set (sorted_set (map quantize column_centers)).

(** [np.argmin]: index of the first minimum; raises on an empty array. *)
Fixpoint argmin_from (l : list Z) (i best_i : nat) (best : Z) : nat :=
  match l with
  | [] => best_i
  | x :: r =>
      if x <? best then argmin_from r (S i) i x
      else argmin_from r (S i) best_i best
  end.

Definition argmin (l : list Z) : result nat :=
  match l with
  | [] => Raised ValueError
  | x :: r => Ok (argmin_from r 1 0 x)
  end.

(** [np.argmin(np.abs(np.array(column_centers) - row_data['left']))] *)
Definition closest_col_idx (column_centers : list Z) (left : Z) : result nat :=
  argmin (map (fun c => Z.abs (c - left)) column_centers).

(** [data.loc[i, 'column_idx'] = closest_col_idx] *)
Definition assign_column (column_centers : list Z) (row_data : Word) : result Word :=
  let* idx := closest_col_idx column_centers (w_left row_data) in
  Ok (mkWord (w_text row_data) (w_left row_data) (w_top row_data)
             (w_height row_data) (Z.of_nat idx)).

Definition assign_columns (column_centers : list Z) (data : list Word)
  : result (list Word) :=
  mapM (assign_column column_centers) data.

(** *** Row segmentation and grid assembly *)

(** [row_data['top'] > current_row_top + row_data['height'] * 0.8], with
    [0.8] read as the rational 8/10. *)
Definition starts_new_row (row_data : Word) (current_row_top : Z) : bool :=
  Qlt_bool (inject_Z current_row_top + inject_Z (w_height row_data) * (8 # 10))
           (inject_Z (w_top row_data)).

(** The body of [for word_info in current_row_words]: one word written into
    [row_output].  [ncols] is [len(column_centers)]; [row_output] has that
    length, so the indexing under the guard is always in range. *)
Definition place (ncols : nat) (row_output : list string) (word_info : Word)
  : list string :=
  let col_idx := column_idx word_info in
  if (0 <=? col_idx) && (col_idx <? Z.of_nat ncols) then
    let cell := default "" (row_output !! Z.to_nat col_idx) in
    if PyStr.truthy cell
    then <[Z.to_nat col_idx := (cell ++ (" " ++ w_text word_info))%string]> row_output
    else <[Z.to_nat col_idx := w_text word_info]> row_output
  else row_output.

(** [row_output = [''] * len(column_centers)] filled from the row's words. *)
Definition build_row (ncols : nat) (current_row_words : list Word) : list string :=
  fold_left (place ncols) current_row_words (replicate ncols "").

(** The row loop.  The source builds [row_output] in place at its two flush
    points; [emit] is that construction, so that the same loop can also be
    read with the bare buckets of words. *)
Section RowLoop.
Context {R : Type} (emit : list Word -> R).

Record RowState : Type := mkRowState {
  table_rows : list R;
  current_row_words : list Word;
  current_row_top : Z
}.

(** [if current_row_words: ...; table_rows.append(row_output)] *)
Definition flush (table_rows : list R) (current_row_words : list Word) : list R :=
  match current_row_words with
  | [] => table_rows
  | _ :: _ => table_rows ++ [emit current_row_words]
  end.

Definition row_step (st : RowState) (row_data : Word) : RowState :=
  if starts_new_row row_data (current_row_top st) then
    mkRowState (flush (table_rows st) (current_row_words st))
               [row_data] (w_top row_data)
  else
    mkRowState (table_rows st) (current_row_words st ++ [row_data])
               (current_row_top st).

(** [data.iloc[0]['top'] if not data.empty else 0] *)
Definition first_top (data : list Word) : Z :=
  match data with
  | [] => 0
  | w :: _ => w_top w
  end.

Definition row_loop (data : list Word) : RowState :=
  fold_left row_step data (mkRowState [] [] (first_top data)).

Definition segment_rows (data : list Word) : list R :=
  let st := row_loop data in
  flush (table_rows st) (current_row_words st).
End RowLoop.

Arguments RowState R : clear implicits.
Arguments mkRowState {R} _ _ _.
Arguments table_rows {R} _.
Arguments current_row_words {R} _.
Arguments current_row_top {R} _.

(** [max(len(row) for row in table_rows)] (of a non-empty list) *)
Definition max_len (table_rows : list (list string)) : nat :=
  fold_right Nat.max 0%nat (map length table_rows).

(** [[f'Col{j+1}' for j in range(num_cols)]] *)
Definition column_names (num_cols : nat) : list string :=
  map (fun j => ("Col" ++ PyStr.str_of_nat (j + 1))%string) (seq 0 num_cols).

(** [row + [''] * (num_cols - len(row))] *)
Definition pad (num_cols : nat) (row : list string) : list string :=
  row ++ replicate (num_cols - length row) "".

(** Lines 129-142: padding and the "is it a table" check. *)
Definition verdict (table_rows : list (list string)) : option DataFrame :=
  match table_rows with
  | [] => None
  | _ :: _ =>
      let num_cols := max_len table_rows in
      let table_rows_padded := map (pad num_cols) table_rows in
      if (1 <? length table_rows_padded)%nat && (1 <? num_cols)%nat
      then Some (mkDataFrame (column_names num_cols) table_rows_padded)
      else None
  end.

(** [data.empty] *)
Definition empty {A : Type} (data : list A) : bool :=
  match data with
  | [] => true
  | _ :: _ => false
  end.

(** The filtered, sorted frame of line 59. *)
Definition prepare (data : list OcrRow) : list Word :=
  sort_values (filter_nonblank (filter_notna (filter_conf data))).

(** The table rows of lines 65-127 for a prepared frame. *)
Definition infer_grid (data : list Word) : result (list (list string)) :=
  let column_centers := refine_centers (cluster data) in
  let* data := assign_columns column_centers data in
  Ok (segment_rows (build_row (length column_centers)) data).

(** [data.text.str] (line 53): the accessor raises on a column that has no
    string dtype, whatever rows are left in the frame. *)
Definition str_accessor (image : PageImage) (data : list Word) : result (list Word) :=
  if text_is_str image then Ok data else Raised AttributeError.

(** The [try] block of [extract_table_from_image]. *)
Definition extract_table_body (image : PageImage) : result (option DataFrame) :=
  let* data := image_to_data image in
  let data := filter_notna (filter_conf data) in
  let* data := str_accessor image data in
  let data := filter_nonblank data in
  if empty data then Ok None
  else
    let data := sort_values data in
    if negb (empty data) then
      let* table_rows := infer_grid data in
      Ok (verdict table_rows)
    else Ok None.

(** [extract_table_from_image]: [except Exception] turns any failure into
    [None]. *)
Definition extract_table_from_image (image : PageImage) : option DataFrame :=
  match extract_table_body image with
  | Ok table => table
  | Raised _ => None
  end.

(** *** Page loop *)

Record PageResult : Type := mkPageResult {
  page_number : nat;
  extracted_text : string;
  is_legible : bool;
  has_table : bool;
  table_data : option DataFrame
}.

(** Steps the page loop takes on its collaborators, in program order.
    [ToCsv] is the whole step that saves the page's table (lines 216-219:
    create the tables directory if it is missing, then [to_csv]) and
    [WriteText] the whole step that saves the text (lines 225-228); a step is
    recorded when it is entered, whether or not it succeeds. *)
Inductive Effect : Type :=
| ExtractTable (page : nat)
| ToCsv (page : nat) (table_df : DataFrame)
| WriteText (page : nat) (cleaned_text : string).

(** Whether the two saving steps of a page succeed. *)
Record FileSystem : Type := mkFileSystem {
  csv_ok : bool;
  txt_ok : bool
}.

Record PageOutcome : Type := mkPageOutcome {
  record : PageResult;            (* the dict appended to [extracted_data] *)
  illegible : list nat;           (* what is appended to [illegible_pages] *)
  effects : list Effect
}.

(** [len(cleaned_text) < MIN_TEXT_LENGTH_FOR_LEGIBILITY] *)
Definition too_short (cleaned_text : string) : bool :=
  (String.length cleaned_text <? MIN_TEXT_LENGTH_FOR_LEGIBILITY)%nat.

(** [table_df.empty]: some axis has length 0. *)
Definition df_empty (df : DataFrame) : bool :=
  empty (rows df) || empty (columns df).

(** The body of [for i, page_image in enumerate(pages)]. *)
Definition process_page (fs : FileSystem) (page_number : nat) (page_image : PageImage)
  : PageOutcome :=
  match image_to_string page_image with
  | Raised _ =>
      mkPageOutcome (mkPageResult page_number "" false false None) [page_number] []
  | Ok text =>
      let cleaned_text := clean_text text in
      let page_text := cleaned_text in
      if too_short cleaned_text then
        mkPageOutcome (mkPageResult page_number page_text false false None)
                      [page_number] []
      else
        let table_df := extract_table_from_image page_image in
        match table_df with
        | Some df =>
            if negb (df_empty df) then
              if csv_ok fs then
                if txt_ok fs then
                  mkPageOutcome (mkPageResult page_number page_text true true table_df) []
                    [ExtractTable page_number; ToCsv page_number df;
                     WriteText page_number cleaned_text]
                else
                  mkPageOutcome (mkPageResult page_number page_text false true table_df)
                    [page_number]
                    [ExtractTable page_number; ToCsv page_number df;
                     WriteText page_number cleaned_text]
              else
                mkPageOutcome (mkPageResult page_number page_text false true table_df)
                  [page_number]
                  [ExtractTable page_number; ToCsv page_number df]
            else if txt_ok fs then
              mkPageOutcome (mkPageResult page_number page_text true false table_df) []
                [ExtractTable page_number; WriteText page_number cleaned_text]
            else
              mkPageOutcome (mkPageResult page_number page_text false false table_df)
                [page_number]
                [ExtractTable page_number; WriteText page_number cleaned_text]
        | None =>
            if txt_ok fs then
              mkPageOutcome (mkPageResult page_number page_text true false None) []
                [ExtractTable page_number; WriteText page_number cleaned_text]
            else
              mkPageOutcome (mkPageResult page_number page_text false false None)
                [page_number]
                [ExtractTable page_number; WriteText page_number cleaned_text]
        end
  end.

(** What [os.path.exists] and [convert_from_path] yield for the path. *)
Inductive Pdf : Type :=
| Missing
| Unconvertible
| Pages (pages : list PageImage).

Fixpoint page_loop (fs : nat -> FileSystem) (page_number : nat) (pages : list PageImage)
  : list PageOutcome :=
  match pages with
  | [] => []
  | page_image :: rest =>
      process_page (fs page_number) page_number page_image
        :: page_loop fs (S page_number) rest
  end.

(** [extract_text_from_pdf]: the records in page order and the illegible
    page numbers; [None] when the document cannot be rasterised. *)
Definition extract_text_from_pdf (fs : nat -> FileSystem) (pdf : Pdf)
  : option (list PageResult) * list nat :=
  match pdf with
  | Missing | Unconvertible => (None, [])
  | Pages pages =>
      let outcomes := page_loop fs 1 pages in
      (Some (map record outcomes), concat (map illegible outcomes))
  end.

End TesseractOcr.

(** ** ocrv1.py *)

Module OcrV1.

Definition MIN_TEXT_LENGTH_FOR_LEGIBILITY : nat := 50.

Record PageImage : Type := mkPageImage {
  image_to_string : result string
}.

Record PageResult : Type := mkPageResult {
  page_number : nat;
  extracted_text : string;
  is_legible : bool
}.

Record PageOutcome : Type := mkPageOutcome {
  records : list PageResult;      (* the dicts appended to [extracted_data] *)
  illegible : list nat;           (* what is appended to [illegible_pages] *)
  written : list (nat * string)   (* text files written or attempted *)
}.

Definition too_short (cleaned_text : string) : bool :=
  (String.length cleaned_text <? MIN_TEXT_LENGTH_FOR_LEGIBILITY)%nat.

(** The body of [for i, page_image in enumerate(pages)]; [txt_ok] tells
    whether writing the page's text file succeeds. *)
Definition process_page (txt_ok : bool) (page_number : nat) (page_image : PageImage)
  : PageOutcome :=
  match image_to_string page_image with
  | Raised _ =>
      mkPageOutcome [mkPageResult page_number "" false] [page_number] []
  | Ok text =>
      let cleaned_text := clean_text text in
      if too_short cleaned_text then
        mkPageOutcome [mkPageResult page_number "" false] [page_number] []
      else if txt_ok then
        mkPageOutcome [mkPageResult page_number cleaned_text true] []
                      [(page_number, cleaned_text)]
      else
        mkPageOutcome [mkPageResult page_number cleaned_text true;
                       mkPageResult page_number "" false]
                      [page_number] [(page_number, cleaned_text)]
  end.

Inductive Pdf : Type :=
| Missing
| Unconvertible
| Pages (pages : list PageImage).

Fixpoint page_loop (fs : nat -> bool) (page_number : nat) (pages : list PageImage)
  : list PageOutcome :=
  match pages with
  | [] => []
  | page_image :: rest =>
      process_page (fs page_number) page_number page_image
        :: page_loop fs (S page_number) rest
  end.

Definition extract_text_from_pdf (fs : nat -> bool) (pdf : Pdf)
  : option (list PageResult) * list nat :=
  match pdf with
  | Missing | Unconvertible => (None, [])
  | Pages pages =>
      let outcomes := page_loop fs 1 pages in
      (Some (concat (map records outcomes)), concat (map illegible outcomes))
  end.

End OcrV1.

(** ** Specification-side definitions *)

(** The clustering pass as the specification words it: every anchor carries
    the number of left-positions merged into it so far, and a merge replaces
    the anchor's position by the equally-weighted running mean. *)
Module RunningMean.

Import TesseractOcr.

Record ColumnAnchor : Type := mkAnchor {
  centerPosition : Q;
  count : Z
}.

Fixpoint merge (left : Z) (anchors : list ColumnAnchor) : option (list ColumnAnchor) :=
  match anchors with
  | [] => None
  | a :: rest =>
      if within_tolerance left (centerPosition a)
      then Some (mkAnchor ((centerPosition a * inject_Z (count a) + inject_Z left)
                           / (inject_Z (count a) + 1))%Q
                          (count a + 1) :: rest)
      else option_map (cons a) (merge left rest)
  end.

Definition step (anchors : list ColumnAnchor) (token : Word) : list ColumnAnchor :=
  match merge (w_left token) anchors with
  | Some anchors' => anchors'
  | None => anchors ++ [mkAnchor (inject_Z (w_left token)) 1]
  end.

Definition cluster (tokens : list Word) : list ColumnAnchor :=
  fold_left step tokens [].

End RunningMean.

Module RowSpec.

Import TesseractOcr.

(** [R] holds between every two neighbours of the list. *)
Fixpoint chain {A : Type} (R : A -> A -> Prop) (l : list A) : Prop :=
  match l with
  | x :: (y :: _) as r => R x y /\ chain R r
  | _ => True
  end.

(** The word's text is not the empty string. *)
Definition nonblank (w : Word) : Prop := PyStr.truthy (w_text w) = true.

(** The bounds guard of grid assembly, for [ncols] columns. *)
Definition guard (ncols : nat) (w : Word) : bool :=
  (0 <=? column_idx w) && (column_idx w <? Z.of_nat ncols).

(** An OCR row that the confidence / NaN / blank filters remove. *)
Definition dropped (r : OcrRow) : Prop :=
  Qlt_bool TABLE_CONFIDENCE_THRESHOLD (conf r) = false \/
  text r = None \/
  exists s, text r = Some s /\ PyStr.strip s = "".

(** The row has at least one non-empty cell. *)
Definition has_text (row : list string) : Prop :=
  exists (i : nat) (cell : string), row !! i = Some cell /\ cell <> "".

(** A row bucket: non-empty, and no word after its first one triggers a new
    row against the top of the first one. *)
Definition row_ok (bucket : list Word) : Prop :=
  match bucket with
  | [] => False
  | h :: t => Forall (fun w => starts_new_row w (w_top h) = false) t
  end.

(** The first word of the next bucket triggers a new row against the top of
    the first word of the bucket before it. *)
Definition boundary_ok (b1 b2 : list Word) : Prop :=
  match b1, b2 with
  | h1 :: _, h2 :: _ => starts_new_row h2 (w_top h1) = true
  | _, _ => False
  end.

(** What the row loop maintains once the first word has been read, for the
    words [pre] read so far: the current bucket is a row under construction
    whose first word gave [current_row_top], and the finished buckets
    followed by the current one partition [pre] at the row triggers. *)
Definition loop_invariant (st : RowState (list Word)) (pre : list Word) : Prop :=
  current_row_words st <> [] /\
  current_row_top st = first_top (current_row_words st) /\
  row_ok (current_row_words st) /\
  (concat (table_rows st) ++ current_row_words st)%list = pre /\
  Forall row_ok (table_rows st) /\
  chain boundary_ok (table_rows st ++ [current_row_words st]).

End RowSpec.

(** ** Fixtures *)

Module Fixtures.

Import TesseractOcr.

(** The four-token page of the specification's scenario. *)
Definition abcd : list OcrRow :=
  [ mkOcrRow 90 (Some "A") 10 100 20;
    mkOcrRow 90 (Some "B") 200 100 20;
    mkOcrRow 90 (Some "C") 10 130 20;
    mkOcrRow 90 (Some "D") 200 130 20 ].

Definition abcd_page : PageImage := mkPageImage (Ok "A B C D") (Ok abcd) true.

(** Three words in one column, one per line. *)
Definition one_column : list OcrRow :=
  [ mkOcrRow 90 (Some "x") 10 100 20;
    mkOcrRow 90 (Some "y") 16 130 20;
    mkOcrRow 90 (Some "z") 22 160 20 ].

(** Two columns on the first line, then a word near the first column. *)
Definition two_columns : list OcrRow :=
  [ mkOcrRow 90 (Some "x") 10 100 20;
    mkOcrRow 90 (Some "y") 200 100 20;
    mkOcrRow 90 (Some "z") 16 130 20 ].

(** A whole-page text of 49 characters. *)
Definition text49 : string :=
  "Lorem ipsum dolor sit amet consectetur adipiscing".

(** A whole-page text of 50 characters. *)
Definition text50 : string :=
  "Lorem ipsum dolor sit amet consectetur adipiscing.".

End Fixtures.

(** ** ollamaocr.py *)

Module OllamaOcr.

(** What PyMuPDF does for the calls of [extract_pdf_page_as_image]:
    [fitz_open] is [len(doc)] of the opened document, or the exception of
    [fitz.open]; the other fields tell whether the call succeeds. *)
Record Fitz : Type := mkFitz {
  fitz_open : result nat;
  load_page_ok : Z -> bool;
  get_pixmap_ok : bool;
  save_ok : bool;
  close_ok : bool
}.

(** Calls made on the library, in program order. *)
Inductive Call : Type :=
| Open
| LoadPage (index : Z)
| GetPixmap (zoom : Q)
| Save
| Close.

(** [extract_pdf_page_as_image(pdf_path, page_number, output_image_path, dpi)]:
    the returned flag and the calls made. *)
Definition extract_pdf_page_as_image (fitz : Fitz) (page_number : Z) (dpi : Z)
  : bool * list Call :=
  match fitz_open fitz with
  | Raised _ => (false, [Open])
  | Ok len_doc =>
      if negb ((1 <=? page_number) && (page_number <=? Z.of_nat len_doc))
      then (false, [Open])
      else if negb (load_page_ok fitz (page_number - 1))
      then (false, [Open; LoadPage (page_number - 1)])
      else if negb (get_pixmap_ok fitz)
      then (false, [Open; LoadPage (page_number - 1);
                    GetPixmap (inject_Z dpi / 20)%Q])
      else if negb (save_ok fitz)
      then (false, [Open; LoadPage (page_number - 1);
                    GetPixmap (inject_Z dpi / 20)%Q; Save])
      else if negb (close_ok fitz)
      then (false, [Open; LoadPage (page_number - 1);
                    GetPixmap (inject_Z dpi / 20)%Q; Save; Close])
      else (true, [Open; LoadPage (page_number - 1);
                   GetPixmap (inject_Z dpi / 20)%Q; Save; Close])
  end.

End OllamaOcr.

(** ** The summary of [Tesseract_ocr.py]'s script part *)

Module TesseractMain.

Import TesseractOcr.

Record Report : Type := mkReport {
  total_pages : nat;
  legible_count : nat;
  illegible_count : nat;
  tables_found_count : nat;
  pages_with_tables : list nat;
  legible_df : list PageResult
}.

(** [df_result[col].sum()] of a boolean column. *)
Definition sum_bool (col : PageResult -> bool) (df_result : list PageResult) : nat :=
  length (List.filter col df_result).

Definition report (df_result : list PageResult) (illegible_pages_list : list nat)
  : Report :=
  mkReport (length df_result)
           (sum_bool is_legible df_result)
           (length illegible_pages_list)
           (sum_bool has_table df_result)
           (map page_number (List.filter has_table df_result))
           (List.filter is_legible df_result).

(** The script: [Ok None] is the branch "PDF processing failed".  A frame
    built from an empty list of records has no columns, so
    [df_result['is_legible']] (line 255) raises [KeyError] for a document
    without pages. *)
Definition main (fs : nat -> FileSystem) (pdf : Pdf) : result (option Report) :=
  match extract_text_from_pdf fs pdf with
  | (Some df_result, illegible_pages_list) =>
      match df_result with
      | [] => Raised KeyError
      | _ :: _ => Ok (Some (report df_result illegible_pages_list))
      end
  | (None, _) => Ok None
  end.

End TesseractMain.

(** ** The summary of [ocrv1.py]'s script part *)

Module OcrV1Main.

Import OcrV1.

Record Report : Type := mkReport {
  total_pages : nat;
  legible_count : nat;
  illegible_count : nat;
  legible_df : list PageResult
}.

Definition report (df_result : list PageResult) (illegible_pages_list : list nat)
  : Report :=
  mkReport (length df_result)
           (length (List.filter is_legible df_result))
           (length illegible_pages_list)
           (List.filter is_legible df_result).

(** The script; as in [Tesseract_ocr.py], [df_result['is_legible']]
    (line 113) raises [KeyError] on the column-less frame of a document
    without pages. *)
Definition main (fs : nat -> bool) (pdf : Pdf) : result (option Report) :=
  match extract_text_from_pdf fs pdf with
  | (Some df_result, illegible_pages_list) =>
      match df_result with
      | [] => Raised KeyError
      | _ :: _ => Ok (Some (report df_result illegible_pages_list))
      end
  | (None, _) => Ok None
  end.

End OcrV1Main.

(** ** Further specification-side definitions *)

Module GridSpec.

Import TesseractOcr.

(** The rows of the OCR frame that pass the three filters. *)
Definition accepted (raw : list OcrRow) : list Word :=
  filter_nonblank (filter_notna (filter_conf raw)).

(** The texts of the words of a row that were assigned column [j], in
    reading order. *)
Definition cell_words (j : nat) (ws : list Word) : list string :=
  map w_text (List.filter (fun w => column_idx w =? Z.of_nat j) ws).

(** The word has the sort key (top [t], left [l]). *)
Definition same_key (t l : Z) (w : Word) : bool :=
  (w_top w =? t) && (w_left w =? l).

(** The order of [sort_values(by=['top', 'left'])], as a proposition. *)
Definition reading_order (a b : Word) : Prop :=
  w_top a < w_top b \/ (w_top a = w_top b /\ w_left a <= w_left b).

(** No character of the string is whitespace. *)
Fixpoint no_space (s : string) : Prop :=
  match s with
  | EmptyString => True
  | String c s' => PyStr.is_space c = false /\ no_space s'
  end.

(** A word as [str.split] yields it: non-empty and free of whitespace. *)
Definition is_word (s : string) : Prop := s <> "" /\ no_space s.

(** Every character of the string is whitespace. *)
Fixpoint all_space (s : string) : Prop :=
  match s with
  | EmptyString => True
  | String c s' => PyStr.is_space c = true /\ all_space s'
  end.

End GridSpec.

Module PageSpec.

Import TesseractOcr.

(** The file writes a legible page attempts, and whether they all succeed. *)
Definition writes_of (fs : FileSystem) (n : nat) (cleaned_text : string)
           (table : option DataFrame) : list Effect * bool :=
  match table with
  | Some df =>
      if csv_ok fs then ([ToCsv n df; WriteText n cleaned_text], txt_ok fs)
      else ([ToCsv n df], false)
  | None => ([WriteText n cleaned_text], txt_ok fs)
  end.

End PageSpec.

Module Fixtures2.

Import TesseractOcr.

(** A row below the confidence threshold. *)
Definition faint : OcrRow := mkOcrRow 70 (Some "smudge") 90 100 20.

(** A document of five pages. *)
Definition five_pages : OllamaOcr.Fitz :=
  OllamaOcr.mkFitz (Ok 5%nat) (fun _ => true) true true true.

(** Two pages for [ocrv1.py]: one legible, one blank. *)
Definition v1_pages : list OcrV1.PageImage :=
  [OcrV1.mkPageImage (Ok Fixtures.text50); OcrV1.mkPageImage (Ok "   ")].

End Fixtures2.

(** * Proofs *)

Import TesseractOcr RowSpec.

(** ** Strings *)

Lemma truthy_nonempty (s : string) : PyStr.truthy s = true <-> s <> "".
Proof. destruct s; simpl; split; congruence. Qed.

Lemma truthy_app_r (s t : string) :
  PyStr.truthy t = true -> PyStr.truthy (s ++ t) = true.
Proof. destruct s; simpl; auto. Qed.

Lemma rstrip_empty : PyStr.rstrip "" = "".
Proof. reflexivity. Qed.

Lemma strip_empty : PyStr.strip "" = "".
Proof. reflexivity. Qed.

(** A word whose stripped text is non-empty has a non-empty text. *)
Lemma strip_truthy (s : string) :
  PyStr.truthy (PyStr.strip s) = true -> PyStr.truthy s = true.
Proof. destruct s; [rewrite strip_empty|]; auto. Qed.

(** ** Filtering and sorting *)

Lemma filter_nonblank_Forall (data : list Word) :
  Forall nonblank (filter_nonblank data).
Proof.
  unfold filter_nonblank. apply List.Forall_forall. intros w Hw.
  apply List.filter_In in Hw. destruct Hw as [_ Hw]. now apply strip_truthy.
Qed.

Lemma insert_sorted_length (w : Word) (l : list Word) :
  length (insert_sorted w l) = S (length l).
Proof.
  induction l as [|x r IH]; simpl; [reflexivity|].
  destruct (reading_le w x); simpl; congruence.
Qed.

Lemma sort_values_length (data : list Word) :
  length (sort_values data) = length data.
Proof.
  induction data as [|w r IH]; [reflexivity|].
  change (sort_values (w :: r)) with (insert_sorted w (sort_values r)).
  rewrite insert_sorted_length, IH. reflexivity.
Qed.

Lemma insert_sorted_perm (w : Word) (l : list Word) :
  Permutation (insert_sorted w l) (w :: l).
Proof.
  induction l as [|x r IH]; simpl; [reflexivity|].
  destruct (reading_le w x); [reflexivity|].
  rewrite IH. apply perm_swap.
Qed.

Lemma sort_values_perm (data : list Word) :
  Permutation (sort_values data) data.
Proof.
  induction data as [|w r IH]; [reflexivity|].
  change (sort_values (w :: r)) with (insert_sorted w (sort_values r)).
  rewrite insert_sorted_perm. now constructor.
Qed.

Lemma sort_values_Forall (P : Word -> Prop) (data : list Word) :
  Forall P data -> Forall P (sort_values data).
Proof.
  intros H. eapply Permutation_Forall; [|exact H].
  symmetry. apply sort_values_perm.
Qed.

Lemma empty_false_iff {A : Type} (l : list A) : empty l = false <-> l <> [].
Proof. destruct l; simpl; split; congruence. Qed.

Lemma sort_values_nonempty (data : list Word) :
  data <> [] -> sort_values data <> [].
Proof.
  intros H E. apply (f_equal length) in E.
  rewrite sort_values_length in E. destruct data; simpl in E; congruence.
Qed.

Lemma prepare_Forall_nonblank (data : list OcrRow) :
  Forall nonblank (prepare data).
Proof. apply sort_values_Forall, filter_nonblank_Forall. Qed.

(** The frame is in reading order after the sort. *)
Lemma reading_le_total (a b : Word) : reading_le a b = false -> reading_le b a = true.
Proof.
  unfold reading_le. intros H. apply orb_false_elim in H. destruct H as [H1 H2].
  apply Z.ltb_ge in H1. apply andb_false_iff in H2.
  destruct (Z.eq_dec (w_top a) (w_top b)) as [E|E].
  - destruct H2 as [H2|H2]; [apply Z.eqb_neq in H2; congruence|].
    apply Z.leb_gt in H2. rewrite E, Z.eqb_refl. simpl.
    rewrite orb_true_iff. right. apply Z.leb_le. lia.
  - rewrite orb_true_iff. left. apply Z.ltb_lt. lia.
Qed.

Lemma insert_sorted_HdRel (w x : Word) (l : list Word) :
  reading_le x w = true ->
  HdRel (fun a b => reading_le a b = true) x l ->
  HdRel (fun a b => reading_le a b = true) x (insert_sorted w l).
Proof.
  intros Hxw H. destruct l as [|y r]; simpl; [now constructor|].
  destruct (reading_le w y); constructor; [assumption|]. now inversion H.
Qed.

Lemma insert_sorted_Sorted (w : Word) (l : list Word) :
  Sorted (fun a b => reading_le a b = true) l ->
  Sorted (fun a b => reading_le a b = true) (insert_sorted w l).
Proof.
  induction 1 as [|x r Hr IH Hx]; simpl; [repeat constructor|].
  destruct (reading_le w x) eqn:E.
  - constructor; [now constructor|now constructor].
  - constructor; [assumption|]. apply insert_sorted_HdRel; [|assumption].
    now apply reading_le_total.
Qed.

Lemma sort_values_Sorted (data : list Word) :
  Sorted (fun a b => reading_le a b = true) (sort_values data).
Proof.
  induction data as [|w r IH]; [constructor|].
  change (sort_values (w :: r)) with (insert_sorted w (sort_values r)).
  now apply insert_sorted_Sorted.
Qed.

(** ** Column inference *)

(** What a merge does: the first centre within tolerance is replaced, and the
    weight of the old centre is the number of centres, [n]. *)
Lemma refine_bin_Some (n left : Z) (cs cs' : list Q) :
  refine_bin n left cs = Some cs' ->
  exists (j : nat) (center : Q),
    cs !! j = Some center /\
    within_tolerance left center = true /\
    (forall i c, (i < j)%nat -> cs !! i = Some c -> within_tolerance left c = false) /\
    cs' = <[j := ((center * inject_Z n + inject_Z left) / (inject_Z n + 1))%Q]> cs.
Proof.
  revert cs'. induction cs as [|c rest IH]; intros cs' H; simpl in H; [discriminate|].
  destruct (within_tolerance left c) eqn:E.
  - injection H as <-. exists 0%nat, c. repeat split; auto. intros i c' Hi. lia.
  - destruct (refine_bin n left rest) as [r|] eqn:Er; simpl in H; [|discriminate].
    injection H as <-. destruct (IH r eq_refl) as (j & center & Hj & Hw & Hfirst & ->).
    exists (S j), center. repeat split; auto.
    intros [|i] c' Hi Hc; simpl in Hc.
    + congruence.
    + apply (Hfirst i); [lia|assumption].
Qed.

Lemma refine_bin_length (n left : Z) (cs cs' : list Q) :
  refine_bin n left cs = Some cs' -> length cs' = length cs.
Proof.
  intros H. destruct (refine_bin_Some _ _ _ _ H) as (j & c & _ & _ & _ & ->).
  apply length_insert.
Qed.

Lemma refine_bin_None (n left : Z) (cs : list Q) :
  refine_bin n left cs = None ->
  Forall (fun c => within_tolerance left c = false) cs.
Proof.
  induction cs as [|c rest IH]; simpl; [constructor|].
  destruct (within_tolerance left c) eqn:E; [discriminate|].
  destruct (refine_bin n left rest); [discriminate|]. intros _.
  constructor; auto.
Qed.

(** One step of the clustering loop: either the first centre within
    tolerance is replaced by
    [(center * len(column_centers) + left) / (len(column_centers) + 1)],
    or no centre is within tolerance and [left] is appended. *)
Lemma cluster_step_cases (cs : list Q) (w : Word) :
  (exists (j : nat) (center : Q),
      cs !! j = Some center /\
      within_tolerance (w_left w) center = true /\
      (forall i c, (i < j)%nat -> cs !! i = Some c ->
                   within_tolerance (w_left w) c = false) /\
      cluster_step cs w
      = <[j := ((center * inject_Z (Z.of_nat (length cs)) + inject_Z (w_left w))
                / (inject_Z (Z.of_nat (length cs)) + 1))%Q]> cs) \/
  (Forall (fun c => within_tolerance (w_left w) c = false) cs /\
   cluster_step cs w = (cs ++ [inject_Z (w_left w)])%list).
Proof.
  unfold cluster_step.
  destruct (refine_bin _ _ cs) as [cs'|] eqn:E.
  - left. destruct (refine_bin_Some _ _ _ _ E) as (j & c & H1 & H2 & H3 & ->).
    now exists j, c.
  - right. split; [|reflexivity]. eapply refine_bin_None, E.
Qed.

Lemma cluster_step_nonempty (cs : list Q) (w : Word) : cluster_step cs w <> [].
Proof.
  unfold cluster_step.
  destruct (refine_bin _ _ cs) as [cs'|] eqn:E.
  - destruct cs as [|c rest]; [discriminate|].
    apply refine_bin_length in E. destruct cs'; [discriminate|congruence].
  - destruct cs; discriminate.
Qed.

Lemma fold_cluster_nonempty (data : list Word) (cs : list Q) :
  cs <> [] -> fold_left cluster_step data cs <> [].
Proof.
  revert cs. induction data as [|w r IH]; intros cs H; simpl; [assumption|].
  apply IH, cluster_step_nonempty.
Qed.

Lemma cluster_nonempty (data : list Word) : data <> [] -> cluster data <> [].
Proof.
  destruct data as [|w r]; [congruence|]. intros _.
  change (cluster (w :: r)) with (fold_left cluster_step r (cluster_step [] w)).
  apply fold_cluster_nonempty, cluster_step_nonempty.
Qed.

Lemma set_insert_nonempty (z : Z) (l : list Z) : set_insert z l <> [].
Proof.
  destruct l as [|x r]; simpl; [discriminate|].
  destruct (z <? x); [discriminate|]. destruct (z =? x); discriminate.
Qed.

Lemma sorted_set_nonempty (l : list Z) : l <> [] -> sorted_set l <> [].
Proof. destruct l; [congruence|]. intros _. apply set_insert_nonempty. Qed.

Lemma refine_centers_nonempty (cs : list Q) : cs <> [] -> refine_centers cs <> [].
Proof.
  intros H. unfold refine_centers. do 2 apply sorted_set_nonempty.
  destruct cs; [congruence|discriminate].
Qed.

(** ** Nearest-anchor assignment *)

Lemma argmin_from_lt (l : list Z) (i best_i : nat) (best : Z) :
  (best_i < i)%nat -> (argmin_from l i best_i best < i + length l)%nat.
Proof.
  revert i best_i best. induction l as [|x r IH]; intros i bi b H; simpl; [lia|].
  destruct (x <? b).
  - specialize (IH (S i) i x). lia.
  - specialize (IH (S i) bi b). lia.
Qed.

Lemma argmin_Ok (l : list Z) :
  l <> [] -> exists k, argmin l = Ok k /\ (k < length l)%nat.
Proof.
  destruct l as [|x r]; [congruence|]. intros _.
  exists (argmin_from r 1 0 x). split; [reflexivity|].
  pose proof (argmin_from_lt r 1 0 x). simpl. lia.
Qed.

Lemma closest_col_idx_Ok (column_centers : list Z) (left : Z) :
  column_centers <> [] ->
  exists k, closest_col_idx column_centers left = Ok k /\
            (k < length column_centers)%nat.
Proof.
  intros H. unfold closest_col_idx.
  destruct (argmin_Ok (map (fun c => Z.abs (c - left)) column_centers)) as (k & E & Hk).
  - destruct column_centers; [congruence|discriminate].
  - exists k. now rewrite length_map in Hk.
Qed.

(** The relation between a word and the same word with its column. *)
Lemma assign_column_Ok (column_centers : list Z) (w : Word) :
  column_centers <> [] ->
  exists w', assign_column column_centers w = Ok w' /\
             w_text w' = w_text w /\ w_left w' = w_left w /\
             w_top w' = w_top w /\ w_height w' = w_height w /\
             guard (length column_centers) w' = true.
Proof.
  intros H. destruct (closest_col_idx_Ok column_centers (w_left w) H) as (k & E & Hk).
  unfold assign_column. rewrite E. simpl. eexists. split; [reflexivity|].
  repeat split. unfold guard. simpl. apply andb_true_intro. split; lia.
Qed.

Lemma assign_columns_Ok (column_centers : list Z) (data : list Word) :
  column_centers <> [] ->
  exists data', assign_columns column_centers data = Ok data' /\
    Forall2 (fun w w' => w_text w' = w_text w /\ w_top w' = w_top w /\
                         w_height w' = w_height w /\
                         guard (length column_centers) w' = true) data data'.
Proof.
  intros H. induction data as [|w r (r' & Er & Hr)].
  - exists []. split; [reflexivity|constructor].
  - destruct (assign_column_Ok column_centers w H) as (w' & Ew & Ht & _ & Htop & Hh & Hg).
    exists (w' :: r'). unfold assign_columns in *. simpl. rewrite Ew. simpl.
    rewrite Er. simpl. split; [reflexivity|]. constructor; auto.
Qed.

(** [argmin] returns the index of the first minimum. *)
Lemma argmin_from_first_min (r pre : list Z) (i best_i : nat) (best : Z) :
  length pre = i ->
  (pre ++ r)%list !! best_i = Some best ->
  (best_i < i)%nat ->
  Forall (fun x => best <= x) pre ->
  (forall j x, (j < best_i)%nat -> (pre ++ r)%list !! j = Some x -> best < x) ->
  exists m,
    (pre ++ r)%list !! argmin_from r i best_i best = Some m /\
    Forall (fun x => m <= x) (pre ++ r)%list /\
    (forall j x, (j < argmin_from r i best_i best)%nat ->
                 (pre ++ r)%list !! j = Some x -> m < x).
Proof.
  revert pre i best_i best.
  induction r as [|x r IH]; intros pre i bi b Hlen Hb Hlt Hpre Hfirst; simpl.
  - exists b. rewrite app_nil_r in *. auto.
  - replace (pre ++ x :: r)%list with ((pre ++ [x]) ++ r)%list in *
      by now rewrite <- app_assoc.
    destruct (x <? b) eqn:E.
    + apply Z.ltb_lt in E. apply IH.
      * rewrite length_app. simpl. lia.
      * rewrite lookup_app_l by (rewrite length_app; simpl; lia).
        rewrite lookup_app_r by lia. now replace (i - length pre)%nat with 0%nat by lia.
      * lia.
      * apply Forall_app. split; [|repeat constructor; lia].
        eapply Forall_impl; [exact Hpre|]. intros; simpl in *; lia.
      * intros j y Hj Hy.
        rewrite lookup_app_l in Hy by (rewrite length_app; simpl; lia).
        rewrite lookup_app_l in Hy by lia.
        rewrite Forall_lookup in Hpre. specialize (Hpre j y Hy). simpl in Hpre. lia.
    + apply Z.ltb_ge in E. apply IH; auto.
      * rewrite length_app. simpl. lia.
      * apply Forall_app. split; [assumption|]. repeat constructor. lia.
Qed.

Lemma argmin_first_min (l : list Z) (k : nat) :
  argmin l = Ok k ->
  exists m, l !! k = Some m /\ Forall (fun x => m <= x) l /\
            (forall j x, (j < k)%nat -> l !! j = Some x -> m < x).
Proof.
  destruct l as [|x r]; simpl; [discriminate|]. intros [= <-].
  apply (argmin_from_first_min r [x] 1 0 x); auto.
  - repeat constructor. lia.
  - intros j y Hj. lia.
Qed.

Lemma lookup_map {A B : Type} (f : A -> B) (l : list A) (i : nat) :
  map f l !! i = option_map f (l !! i).
Proof.
  revert i. induction l as [|a r IH]; intros [|i]; simpl; auto.
Qed.

(** The assigned column is the nearest anchor, the first one among equally
    near ones. *)
Lemma closest_col_idx_nearest (column_centers : list Z) (left : Z) (k : nat) :
  closest_col_idx column_centers left = Ok k ->
  exists c,
    column_centers !! k = Some c /\
    Forall (fun c' => Z.abs (c - left) <= Z.abs (c' - left)) column_centers /\
    (forall j c', (j < k)%nat -> column_centers !! j = Some c' ->
                  Z.abs (c - left) < Z.abs (c' - left)).
Proof.
  unfold closest_col_idx. intros H.
  destruct (argmin_first_min _ _ H) as (m & Hk & Hmin & Hfirst).
  rewrite lookup_map in Hk. destruct (column_centers !! k) as [c|] eqn:Ec; [|discriminate].
  injection Hk as <-. exists c. split; [reflexivity|]. split.
  - apply List.Forall_forall. intros c' Hc'. rewrite List.Forall_forall in Hmin.
    apply Hmin. now apply (in_map (fun c0 => Z.abs (c0 - left))).
  - intros j c' Hj Hc'. apply (Hfirst j); [assumption|].
    rewrite lookup_map, Hc'. reflexivity.
Qed.

(** ** Grid assembly *)

Lemma place_length (ncols : nat) (row : list string) (w : Word) :
  length (place ncols row w) = length row.
Proof.
  unfold place. destruct (_ && _); [|reflexivity].
  destruct (PyStr.truthy _); apply length_insert.
Qed.

Lemma build_row_length (ncols : nat) (ws : list Word) :
  length (build_row ncols ws) = ncols.
Proof.
  unfold build_row. generalize (length_replicate ncols "").
  generalize (replicate ncols "") as row.
  induction ws as [|w r IH]; intros row H; simpl; [assumption|].
  apply IH. now rewrite place_length.
Qed.

(** Placing a word never empties a row that already has text: a non-empty
    target cell is extended, and only an empty one is overwritten. *)
Lemma place_keeps_text (ncols : nat) (row : list string) (w : Word) :
  has_text row -> has_text (place ncols row w).
Proof.
  intros (i & cell & Hi & Hc). unfold place.
  destruct (_ && _); [|now exists i, cell].
  set (j := Z.to_nat (column_idx w)).
  destruct (decide (j = i)) as [->|Hne].
  - rewrite Hi. simpl. apply truthy_nonempty in Hc. rewrite Hc.
    exists i. eexists. split.
    + apply list_lookup_insert_eq. eapply lookup_lt_Some, Hi.
    + destruct cell; [discriminate|discriminate].
  - destruct (PyStr.truthy _); exists i, cell;
      (split; [rewrite list_lookup_insert_ne by assumption; exact Hi|exact Hc]).
Qed.

(** A word with an in-range column and a non-empty text leaves text in the
    row. *)
Lemma place_writes_text (ncols : nat) (row : list string) (w : Word) :
  length row = ncols -> guard ncols w = true -> nonblank w ->
  has_text (place ncols row w).
Proof.
  intros Hlen Hg Hw. unfold place. unfold guard in Hg. rewrite Hg.
  apply andb_prop in Hg. destruct Hg as [H0 H1].
  set (j := Z.to_nat (column_idx w)).
  assert (Hj : (j < length row)%nat) by (subst j; lia).
  exists j. destruct (PyStr.truthy _) eqn:E.
  - eexists. split; [now apply list_lookup_insert_eq|].
    destruct (default "" (row !! j)); discriminate.
  - exists (w_text w). split; [now apply list_lookup_insert_eq|].
    now apply truthy_nonempty.
Qed.

Lemma fold_place_keeps_text (ncols : nat) (ws : list Word) (row : list string) :
  has_text row -> has_text (fold_left (place ncols) ws row).
Proof.
  revert row. induction ws as [|w r IH]; intros row H; simpl; [assumption|].
  apply IH, place_keeps_text, H.
Qed.

Lemma build_row_has_text (ncols : nat) (ws : list Word) :
  ws <> [] -> Forall (fun w => guard ncols w = true /\ nonblank w) ws ->
  has_text (build_row ncols ws).
Proof.
  destruct ws as [|w r]; [congruence|]. intros _ H.
  apply Forall_cons_1 in H. destruct H as [[Hg Hw] _].
  unfold build_row. simpl. apply fold_place_keeps_text.
  apply place_writes_text; auto using length_replicate.
Qed.

Lemma pad_length (num_cols : nat) (row : list string) :
  (length row <= num_cols)%nat -> length (pad num_cols row) = num_cols.
Proof.
  intros H. unfold pad. rewrite length_app, length_replicate. lia.
Qed.

Lemma pad_has_text (num_cols : nat) (row : list string) :
  has_text row -> has_text (pad num_cols row).
Proof.
  intros (i & cell & Hi & Hc). exists i, cell. split; [|assumption].
  unfold pad. now apply lookup_app_l_Some.
Qed.

Lemma max_len_ge (table_rows : list (list string)) (row : list string) :
  In row table_rows -> (length row <= max_len table_rows)%nat.
Proof.
  unfold max_len. induction table_rows as [|x r IH]; simpl; [tauto|].
  intros [->|H]; [lia|]. specialize (IH H). lia.
Qed.

(** When all rows have the same length, that length is the maximum. *)
Lemma max_len_uniform (n : nat) (table_rows : list (list string)) :
  table_rows <> [] -> Forall (fun row => length row = n) table_rows ->
  max_len table_rows = n.
Proof.
  unfold max_len. induction table_rows as [|x r IH]; [congruence|].
  intros _ H. apply Forall_cons_1 in H. destruct H as [Hx Hr]. simpl.
  destruct r as [|y r']; simpl in *; [lia|].
  rewrite IH by (auto; discriminate). lia.
Qed.

Lemma column_names_length (num_cols : nat) :
  length (column_names num_cols) = num_cols.
Proof. unfold column_names. now rewrite length_map, length_seq. Qed.

(** ** Row segmentation *)

Lemma Qlt_bool_iff (a b : Q) : Qlt_bool a b = true <-> (a < b)%Q.
Proof.
  unfold Qlt_bool. rewrite negb_true_iff, <- not_true_iff_false, Qle_bool_iff.
  split; [apply Qnot_le_lt|apply Qlt_not_le].
Qed.

(** The row test over the integers: the word lies more than four fifths of
    its height below the current row's top. *)
Lemma starts_new_row_iff (w : Word) (current_row_top : Z) :
  starts_new_row w current_row_top = true <->
  4 * w_height w < 5 * (w_top w - current_row_top).
Proof.
  unfold starts_new_row. rewrite Qlt_bool_iff. unfold Qlt. simpl. lia.
Qed.

(** After the first word the loop is in the same state whether or not that
    word fired the row test: no row is flushed from an empty bucket. *)
Lemma row_loop_cons {R : Type} (emit : list Word -> R) (w : Word) (rest : list Word) :
  row_loop emit (w :: rest)
  = fold_left (row_step emit) rest (mkRowState [] [w] (w_top w)).
Proof.
  unfold row_loop. simpl. unfold row_step at 2. simpl.
  destruct (starts_new_row w (w_top w)); reflexivity.
Qed.

(** The loop with [emit] is the loop over bare buckets, mapped. *)
Lemma fold_row_step_map {R : Type} (emit : list Word -> R) (data : list Word)
      (st : RowState (list Word)) :
  fold_left (row_step emit) data
    (mkRowState (map emit (table_rows st)) (current_row_words st) (current_row_top st))
  = let st' := fold_left (row_step (fun b => b)) data st in
    mkRowState (map emit (table_rows st')) (current_row_words st') (current_row_top st').
Proof.
  revert st. induction data as [|w r IH]; intros st; simpl; [reflexivity|].
  rewrite <- IH. f_equal. unfold row_step. simpl.
  destruct (starts_new_row w (current_row_top st)); simpl; [|reflexivity].
  f_equal. destruct (current_row_words st); simpl; [reflexivity|].
  now rewrite map_app.
Qed.

Lemma segment_rows_map {R : Type} (emit : list Word -> R) (data : list Word) :
  segment_rows emit data = map emit (segment_rows (fun b => b) data).
Proof.
  unfold segment_rows, row_loop.
  pose proof (fold_row_step_map emit data (mkRowState [] [] (first_top data))) as H.
  simpl in H. rewrite H. simpl.
  destruct (current_row_words _); simpl; [reflexivity|].
  now rewrite map_app.
Qed.

Lemma chain_snoc {A : Type} (R : A -> A -> Prop) (l : list A) (x y : A) :
  chain R (l ++ [x]) -> R x y -> chain R ((l ++ [x]) ++ [y]).
Proof.
  induction l as [|a l' IH]; simpl; [tauto|].
  destruct l' as [|b l'']; simpl in *; [tauto|].
  intros [Hab Hc] Hxy. split; [assumption|]. now apply IH.
Qed.

Lemma chain_last {A : Type} (R : A -> A -> Prop) (l : list A) (x x' : A) :
  (forall z, R z x -> R z x') -> chain R (l ++ [x]) -> chain R (l ++ [x']).
Proof.
  intros HR. induction l as [|a l' IH]; simpl; [tauto|].
  destruct l' as [|b l'']; simpl in *.
  - intros [H _]. split; [now apply HR|exact I].
  - intros [Hab Hc]. split; [assumption|]. now apply IH.
Qed.

Lemma loop_invariant_step (st : RowState (list Word)) (pre : list Word) (w : Word) :
  loop_invariant st pre -> loop_invariant (row_step (fun b => b) st w) (pre ++ [w]).
Proof.
  intros (Hne & Htop & Hrow & Hcat & Hrows & Hchain).
  destruct st as [tr cur crt]. simpl in *.
  destruct cur as [|h t]; [congruence|]. simpl in Htop. subst crt.
  unfold row_step. simpl. destruct (starts_new_row w (w_top h)) eqn:E; simpl.
  - repeat split; simpl.
    + discriminate.
    + constructor.
    + rewrite concat_app. simpl. rewrite app_nil_r, <- Hcat. now rewrite <- app_assoc.
    + apply Forall_app. split; [assumption|]. now constructor.
    + apply chain_snoc; assumption.
  - repeat split; simpl.
    + discriminate.
    + simpl in Hrow. apply Forall_app. split; [assumption|]. now constructor.
    + rewrite <- Hcat, <- app_assoc. reflexivity.
    + assumption.
    + eapply chain_last; [|exact Hchain]. intros [|z zs]; simpl; auto.
Qed.

Lemma loop_invariant_fold (data : list Word) (st : RowState (list Word)) (pre : list Word) :
  loop_invariant st pre ->
  loop_invariant (fold_left (row_step (fun b => b)) data st) (pre ++ data).
Proof.
  revert st pre. induction data as [|w r IH]; intros st pre H; simpl.
  - now rewrite app_nil_r.
  - replace (pre ++ w :: r)%list with ((pre ++ [w]) ++ r)%list
      by now rewrite <- app_assoc.
    apply IH, loop_invariant_step, H.
Qed.

Lemma row_loop_invariant (w : Word) (rest : list Word) :
  loop_invariant (row_loop (fun b => b) (w :: rest)) (w :: rest).
Proof.
  rewrite row_loop_cons. apply (loop_invariant_fold rest _ [w]).
  repeat split; simpl; auto; discriminate.
Qed.

(** The buckets of the row loop partition the words at the row triggers. *)
Lemma segment_rows_buckets (data : list Word) :
  let buckets := segment_rows (fun b => b) data in
  concat buckets = data /\ Forall row_ok buckets /\ chain boundary_ok buckets.
Proof.
  destruct data as [|w rest]; [simpl; repeat split; constructor|].
  destruct (row_loop_invariant w rest) as (Hne & _ & Hrow & Hcat & Hrows & Hchain).
  unfold segment_rows. simpl.
  destruct (row_loop (fun b => b) (w :: rest)) as [tr cur crt]. simpl in *.
  destruct cur as [|h t]; [congruence|]. simpl. repeat split.
  - rewrite concat_app. simpl. now rewrite app_nil_r.
  - apply Forall_app. split; [assumption|]. now constructor.
  - assumption.
Qed.

(** ** The extraction pipeline *)

Lemma verdict_Some (table_rows : list (list string)) (df : DataFrame) :
  verdict table_rows = Some df ->
  (1 < length table_rows)%nat /\ (1 < max_len table_rows)%nat /\
  df = mkDataFrame (column_names (max_len table_rows))
                   (map (pad (max_len table_rows)) table_rows).
Proof.
  unfold verdict. destruct table_rows as [|r0 rs]; [discriminate|].
  rewrite length_map.
  destruct (1 <? length (r0 :: rs))%nat eqn:E1; simpl; [|discriminate].
  destruct (1 <? max_len (r0 :: rs))%nat eqn:E2; simpl; [|discriminate].
  intros [= <-]. apply Nat.ltb_lt in E1, E2. auto.
Qed.

Lemma verdict_None (table_rows : list (list string)) :
  (length table_rows <= 1)%nat \/ (max_len table_rows <= 1)%nat ->
  verdict table_rows = None.
Proof.
  intros H. destruct (verdict table_rows) as [df|] eqn:E; [|reflexivity].
  apply verdict_Some in E. lia.
Qed.

Lemma filter_dropped (raw : list OcrRow) :
  Forall dropped raw -> filter_nonblank (filter_notna (filter_conf raw)) = [].
Proof.
  induction 1 as [|r rest Hr _ IH]; [reflexivity|].
  unfold filter_conf in *. simpl.
  destruct Hr as [Hc|[Hn|(s & Hs & Hb)]].
  - now rewrite Hc.
  - destruct (Qlt_bool _ _); [|assumption].
    unfold filter_notna in *. simpl. unfold notna at 1. now rewrite Hn.
  - destruct (Qlt_bool _ _); [|assumption].
    unfold filter_notna in *. simpl. unfold notna at 1. rewrite Hs. simpl.
    unfold filter_nonblank in *. simpl. now rewrite Hb.
Qed.

(** On a non-empty prepared frame the grid inference cannot fail. *)
Lemma infer_grid_Ok (data : list Word) :
  data <> [] ->
  exists data',
    assign_columns (refine_centers (cluster data)) data = Ok data' /\
    infer_grid data
    = Ok (segment_rows (build_row (length (refine_centers (cluster data)))) data').
Proof.
  intros H.
  destruct (assign_columns_Ok (refine_centers (cluster data)) data) as (data' & E & _).
  { now apply refine_centers_nonempty, cluster_nonempty. }
  exists data'. split; [assumption|]. unfold infer_grid. now rewrite E.
Qed.

(** The shape of the [try] block for each outcome of the OCR call and each
    dtype of the text column. *)
Lemma extract_table_body_cases (image : PageImage) :
  match image_to_data image with
  | Raised e => extract_table_body image = Raised e
  | Ok raw =>
      if text_is_str image then
        if empty (filter_nonblank (filter_notna (filter_conf raw)))
        then extract_table_body image = Ok None
        else exists table_rows,
            infer_grid (prepare raw) = Ok table_rows /\
            extract_table_body image = Ok (verdict table_rows)
      else extract_table_body image = Raised AttributeError
  end.
Proof.
  unfold extract_table_body, str_accessor.
  destruct (image_to_data image) as [raw|e]; simpl; [|reflexivity].
  destruct (text_is_str image); simpl; [|reflexivity].
  destruct (empty (filter_nonblank _)) eqn:E; [reflexivity|].
  apply empty_false_iff, sort_values_nonempty in E.
  pose proof E as E'. apply empty_false_iff in E'. rewrite E'. simpl.
  destruct (infer_grid_Ok _ E) as (data' & _ & Hg).
  unfold prepare. rewrite Hg. simpl. eexists. split; reflexivity.
Qed.

(** The [try] block raises only when the OCR call does or when the text
    column holds no string: column, row and grid inference never fail. *)
Lemma extract_table_body_Raised (image : PageImage) (e : exception) :
  extract_table_body image = Raised e <->
  image_to_data image = Raised e \/
  (exists raw, image_to_data image = Ok raw /\
               text_is_str image = false /\ e = AttributeError).
Proof.
  pose proof (extract_table_body_cases image) as H.
  destruct (image_to_data image) as [raw|e'].
  - destruct (text_is_str image).
    + destruct (empty _).
      * rewrite H. split; [discriminate|].
        intros [Hd|(r & _ & Hd & _)]; discriminate.
      * destruct H as (tr & _ & ->). split; [discriminate|].
        intros [Hd|(r & _ & Hd & _)]; discriminate.
    + rewrite H. split.
      * intros [= <-]. right. exists raw. auto.
      * intros [Hd|(r & _ & _ & ->)]; [discriminate|reflexivity].
  - rewrite H. split.
    + intros [= ->]. now left.
    + intros [[= ->]|(r & Hd & _)]; [reflexivity|discriminate].
Qed.

(** A returned table, traced back through the pipeline. *)
Lemma extract_table_Some (image : PageImage) (df : DataFrame) :
  extract_table_from_image image = Some df ->
  exists raw data' table_rows,
    image_to_data image = Ok raw /\
    prepare raw <> [] /\
    assign_columns (refine_centers (cluster (prepare raw))) (prepare raw) = Ok data' /\
    table_rows
    = segment_rows (build_row (length (refine_centers (cluster (prepare raw))))) data' /\
    infer_grid (prepare raw) = Ok table_rows /\
    verdict table_rows = Some df.
Proof.
  unfold extract_table_from_image. intros H.
  pose proof (extract_table_body_cases image) as Hc.
  destruct (image_to_data image) as [raw|e]; [|rewrite Hc in H; discriminate].
  destruct (text_is_str image); [|rewrite Hc in H; discriminate].
  destruct (empty _) eqn:E; [rewrite Hc in H; discriminate|].
  destruct Hc as (tr & Hg & Hb). rewrite Hb in H.
  apply empty_false_iff, sort_values_nonempty in E.
  destruct (infer_grid_Ok _ E) as (data' & Ha & Hg').
  fold (prepare raw) in *. rewrite Hg in Hg'. injection Hg' as ->.
  exists raw, data'. eexists. repeat split; eauto.
Qed.

Lemma segment_rows_Forall {R : Type} (emit : list Word -> R) (P : R -> Prop)
      (data : list Word) :
  (forall bucket, row_ok bucket -> Forall (fun w => In w data) bucket -> P (emit bucket)) ->
  Forall P (segment_rows emit data).
Proof.
  intros H. rewrite segment_rows_map.
  destruct (segment_rows_buckets data) as (Hcat & Hok & _).
  apply Forall_map. apply List.Forall_forall. intros b Hb.
  apply H.
  - rewrite List.Forall_forall in Hok. now apply Hok.
  - apply List.Forall_forall. intros w Hw. rewrite <- Hcat.
    apply in_concat. exists b. split; assumption.
Qed.

(** Every assembled row has one cell per column anchor. *)
Lemma grid_rows_length (ncols : nat) (data : list Word) :
  Forall (fun row => length row = ncols) (segment_rows (build_row ncols) data).
Proof. apply segment_rows_Forall. intros b _ _. apply build_row_length. Qed.

Lemma Forall2_transfer {A B : Type} (R : A -> B -> Prop) (P : A -> Prop)
      (Q : B -> Prop) (l : list A) (l' : list B) :
  (forall x y, R x y -> P x -> Q y) ->
  Forall2 R l l' -> Forall P l -> Forall Q l'.
Proof.
  intros H H2. induction H2 as [|x y l l' Hxy _ IH]; intros HP; constructor.
  - apply (H x y Hxy). now apply Forall_cons_1 in HP.
  - apply IH. now apply Forall_cons_1 in HP.
Qed.

(** After assignment every word has an in-range column and a non-empty
    text. *)
Lemma assigned_words_ok (raw : list OcrRow) (data' : list Word) :
  prepare raw <> [] ->
  assign_columns (refine_centers (cluster (prepare raw))) (prepare raw) = Ok data' ->
  Forall (fun w => guard (length (refine_centers (cluster (prepare raw)))) w = true
                   /\ nonblank w) data'.
Proof.
  intros Hne E.
  destruct (assign_columns_Ok (refine_centers (cluster (prepare raw))) (prepare raw))
    as (d & E' & H2).
  { now apply refine_centers_nonempty, cluster_nonempty. }
  rewrite E in E'. injection E' as <-.
  eapply Forall2_transfer; [|exact H2|apply prepare_Forall_nonblank].
  intros w w' (Ht & _ & _ & Hg) Hw. split; [assumption|].
  unfold nonblank in *. now rewrite Ht.
Qed.

(** ** The page loop *)

(** A page whose cleaned text is too short: marked illegible, no table
    extraction and no file written; the record keeps the cleaned text. *)
Lemma process_page_too_short (fs : FileSystem) (n : nat) (text : string)
      (words : result (list OcrRow)) (is_str : bool) :
  too_short (clean_text text) = true ->
  process_page fs n (mkPageImage (Ok text) words is_str)
  = mkPageOutcome (mkPageResult n (clean_text text) false false None) [n] [].
Proof. intros H. unfold process_page. simpl. now rewrite H. Qed.

(** A page whose cleaned text is long enough, when both file writes
    succeed: legible, with the cleaned text, after one table extraction. *)
Lemma process_page_legible (n : nat) (text : string) (words : result (list OcrRow))
      (is_str : bool) :
  too_short (clean_text text) = false ->
  let out := process_page (mkFileSystem true true) n
                          (mkPageImage (Ok text) words is_str) in
  is_legible (record out) = true /\
  extracted_text (record out) = clean_text text /\
  illegible out = [] /\
  In (ExtractTable n) (effects out).
Proof.
  intros H. unfold process_page. simpl. rewrite H.
  destruct (extract_table_from_image _) as [df|]; simpl.
  - destruct (df_empty df); simpl; repeat split; auto.
  - repeat split; auto.
Qed.


(** Records come out one per page, numbered from 1. *)
Lemma page_loop_numbers (fs : nat -> FileSystem) (n : nat) (pages : list PageImage) :
  map (fun o => page_number (record o)) (page_loop fs n pages) = seq n (length pages).
Proof.
  revert n. induction pages as [|p r IH]; intros n; simpl; [reflexivity|].
  rewrite IH. f_equal. unfold process_page.
  repeat match goal with
         | |- context [match ?x with _ => _ end] => destruct x; simpl
         end; reflexivity.
Qed.

Lemma v1_process_page_too_short (txt_ok : bool) (n : nat) (text : string) :
  OcrV1.too_short (clean_text text) = true ->
  OcrV1.process_page txt_ok n (OcrV1.mkPageImage (Ok text))
  = OcrV1.mkPageOutcome [OcrV1.mkPageResult n "" false] [n] [].
Proof. intros H. unfold OcrV1.process_page. simpl. now rewrite H. Qed.


(** * Claims *)

(** C1.  The clustering pass does not keep the equally-weighted running mean
    of the left-positions merged into an anchor: the weight it gives the old
    centre is the current number of anchors, not the number of positions
    merged into that anchor.  On three words in one column (lefts 10, 16, 22)
    the code ends at 35/2 where the running mean is 16; with a second anchor
    present (lefts 10, 200, 16) it ends at 12 where the running mean is
    13. *)
Theorem cluster_weight_is_anchor_count :
  map Qred (cluster (prepare Fixtures.one_column)) = [(35 # 2)%Q] /\
  map (fun a => Qred (RunningMean.centerPosition a))
      (RunningMean.cluster (prepare Fixtures.one_column)) = [16%Q] /\
  map Qred (cluster (prepare Fixtures.two_columns)) = [12%Q; 200%Q] /\
  map (fun a => Qred (RunningMean.centerPosition a))
      (RunningMean.cluster (prepare Fixtures.two_columns)) = [13%Q; 200%Q] /\
  ~ Forall2 Qeq (cluster (prepare Fixtures.one_column))
                (map RunningMean.centerPosition
                     (RunningMean.cluster (prepare Fixtures.one_column))) /\
  ~ Forall2 Qeq (cluster (prepare Fixtures.two_columns))
                (map RunningMean.centerPosition
                     (RunningMean.cluster (prepare Fixtures.two_columns))).
Proof.
  repeat split; try (vm_compute; reflexivity).
  - intros H. apply Forall2_cons_1 in H. destruct H as [H _].
    vm_compute in H. discriminate.
  - intros H. apply Forall2_cons_1 in H. destruct H as [H _].
    vm_compute in H. discriminate.
Qed.

(** C2.  On the four tokens A(10,100), B(200,100), C(10,130), D(200,130),
    each of height 20 and confidence 90, table extraction infers two column
    anchors and two rows and returns the table [[A, B], [C, D]]. *)
Theorem abcd_table (whole_page : result string) :
  let image := mkPageImage whole_page (Ok Fixtures.abcd) true in
  length (refine_centers (cluster (prepare Fixtures.abcd))) = 2%nat /\
  (exists table_rows,
      infer_grid (prepare Fixtures.abcd) = Ok table_rows /\
      length table_rows = 2%nat) /\
  extract_table_from_image image
  = Some (mkDataFrame ["Col1"; "Col2"] [["A"; "B"]; ["C"; "D"]]).
Proof.
  repeat split.
  exists [["A"; "B"]; ["C"; "D"]]. split; vm_compute; reflexivity.
Qed.

(** C4.  Table extraction returns None whenever the assembled grid has at
    most one row or at most one column; a table is returned only from a grid
    with more than one row and more than one column, and it has that many
    rows and columns. *)
Theorem table_has_two_rows_and_columns
        (image : PageImage) (raw : list OcrRow) (table_rows : list (list string)) :
  image_to_data image = Ok raw ->
  infer_grid (prepare raw) = Ok table_rows ->
  ((length table_rows <= 1)%nat \/ (max_len table_rows <= 1)%nat ->
   extract_table_from_image image = None) /\
  (forall df, extract_table_from_image image = Some df ->
     (1 < length table_rows)%nat /\ (1 < max_len table_rows)%nat /\
     length (rows df) = length table_rows /\
     length (columns df) = max_len table_rows).
Proof.
  intros Hraw Hgrid.
  assert (Hdf : forall df, extract_table_from_image image = Some df ->
                           verdict table_rows = Some df).
  { intros df H. destruct (extract_table_Some _ _ H) as (raw' & d & tr & E & _ & _ & _ & Hg & Hv).
    congruence. }
  split.
  - intros Hsmall. destruct (extract_table_from_image image) as [df|] eqn:E; [|reflexivity].
    specialize (Hdf df eq_refl). rewrite (verdict_None _ Hsmall) in Hdf. discriminate.
  - intros df H. destruct (verdict_Some _ _ (Hdf df H)) as (H1 & H2 & ->). simpl.
    now rewrite length_map, column_names_length.
Qed.

Lemma table_has_two_rows_and_columns_witness :
  (1 < 2)%nat /\ (1 < 2)%nat /\
  length [["A"; "B"]; ["C"; "D"]] = 2%nat /\ length ["Col1"; "Col2"] = 2%nat.
Proof.
  refine (proj2 (table_has_two_rows_and_columns Fixtures.abcd_page Fixtures.abcd
                   [["A"; "B"]; ["C"; "D"]] _ _)
                (mkDataFrame ["Col1"; "Col2"] [["A"; "B"]; ["C"; "D"]]) _);
    vm_compute; reflexivity.
Defined.

(** C5.  In every table returned by table extraction each row has exactly as
    many cells as the table has columns: the rows are the assembled rows
    right-padded with empty strings to the longest assembled row, which is
    also the number of column anchors. *)
Theorem table_rows_uniform (image : PageImage) (df : DataFrame) :
  extract_table_from_image image = Some df ->
  Forall (fun row => length row = length (columns df)) (rows df) /\
  exists raw table_rows,
    image_to_data image = Ok raw /\
    infer_grid (prepare raw) = Ok table_rows /\
    rows df = map (fun row => (row ++ replicate (max_len table_rows - length row) "")%list)
                  table_rows /\
    length (columns df) = max_len table_rows /\
    max_len table_rows = length (refine_centers (cluster (prepare raw))).
Proof.
  intros H.
  destruct (extract_table_Some _ _ H) as (raw & d & tr & Hraw & _ & _ & Htr & Hg & Hv).
  destruct (verdict_Some _ _ Hv) as (H1 & _ & ->). simpl.
  rewrite column_names_length. split.
  - apply Forall_map. apply List.Forall_forall. intros row Hrow.
    apply pad_length, max_len_ge, Hrow.
  - exists raw, tr. repeat split; auto.
    apply max_len_uniform.
    + destruct tr; [simpl in H1; lia|discriminate].
    + subst tr. apply grid_rows_length.
Qed.

Lemma table_rows_uniform_witness :
  Forall (fun row => length row = 2%nat) [["A"; "B"]; ["C"; "D"]].
Proof.
  exact (proj1 (table_rows_uniform Fixtures.abcd_page
                  (mkDataFrame ["Col1"; "Col2"] [["A"; "B"]; ["C"; "D"]]) eq_refl)).
Defined.

(** C7.  Row segmentation.  A word fires the row test exactly when its top
    exceeds the current row's top by more than 0.8 of its height; on firing,
    the bucket in progress is flushed, the word opens the next bucket and the
    current row's top becomes that word's top; otherwise the word joins the
    bucket in progress.  After the last word the bucket in progress is
    flushed.  The buckets, concatenated in order, are exactly the words read:
    every word sits in exactly one row; no bucket is empty; inside a bucket
    no later word fires against the first word's top, and the first word of
    each next bucket does.  The rows of the grid are the buckets, each
    assembled by [emit]. *)
Theorem row_segmentation {R : Type} (emit : list Word -> R) (data : list Word) :
  (forall (st : RowState R) (w : Word),
      (starts_new_row w (current_row_top st) = true <->
       4 * w_height w < 5 * (w_top w - current_row_top st)) /\
      (starts_new_row w (current_row_top st) = true ->
       row_step emit st w
       = mkRowState (flush emit (table_rows st) (current_row_words st)) [w] (w_top w)) /\
      (starts_new_row w (current_row_top st) = false ->
       row_step emit st w
       = mkRowState (table_rows st) (current_row_words st ++ [w]) (current_row_top st))) /\
  segment_rows emit data
  = flush emit (table_rows (row_loop emit data)) (current_row_words (row_loop emit data)) /\
  let buckets := segment_rows (fun b => b) data in
  segment_rows emit data = map emit buckets /\
  concat buckets = data /\
  Forall row_ok buckets /\
  chain boundary_ok buckets.
Proof.
  split; [|split; [reflexivity|]].
  - intros st w. split; [apply starts_new_row_iff|].
    unfold row_step. split; intros ->; reflexivity.
  - intros buckets. split; [apply segment_rows_map|apply segment_rows_buckets].
Qed.

(** C8.  Table extraction never raises to its caller: whenever the body of
    its [try] block raises, the result is None.  The body raises in two
    cases only, when the OCR call raises and when the text column holds no
    string (the [.str] accessor of line 53); column, row and grid inference
    never fail.  An empty word-token sequence, or one whose rows are all
    removed by the confidence and blank filters, gives None in every case,
    and with a string-typed text column no exception is raised at all. *)
Theorem extract_table_never_raises (image : PageImage) :
  (forall e, extract_table_body image = Raised e ->
             extract_table_from_image image = None) /\
  (forall e, extract_table_body image = Raised e ->
             image_to_data image = Raised e \/
             (exists raw, image_to_data image = Ok raw /\
                          text_is_str image = false /\ e = AttributeError)) /\
  (forall e, image_to_data image = Raised e ->
             extract_table_from_image image = None) /\
  (text_is_str image = false -> extract_table_from_image image = None) /\
  (forall raw, image_to_data image = Ok raw -> Forall dropped raw ->
               extract_table_from_image image = None /\
               (text_is_str image = true -> extract_table_body image = Ok None)).
Proof.
  pose proof (extract_table_body_cases image) as Hc.
  assert (H1 : forall e, extract_table_body image = Raised e ->
                         extract_table_from_image image = None).
  { intros e H. unfold extract_table_from_image. now rewrite H. }
  split; [exact H1|]. split; [|split; [|split]].
  - intros e. apply extract_table_body_Raised.
  - intros e H. apply (H1 e). apply extract_table_body_Raised. now left.
  - intros Hs. destruct (image_to_data image) as [raw|e] eqn:E.
    + apply (H1 AttributeError). apply extract_table_body_Raised.
      right. exists raw. auto.
    + apply (H1 e). apply extract_table_body_Raised. now left.
  - intros raw Hraw Hd. rewrite Hraw in Hc.
    rewrite (filter_dropped _ Hd) in Hc. simpl in Hc.
    destruct (text_is_str image) eqn:Es.
    + split; [|intros _; exact Hc].
      unfold extract_table_from_image. now rewrite Hc.
    + split; [apply (H1 _ Hc)|discriminate].
Qed.

Lemma extract_table_never_raises_witness :
  extract_table_from_image (mkPageImage (Ok "") (Raised OcrEngineError) true) = None /\
  extract_table_from_image (mkPageImage (Ok "") (Ok []) true) = None /\
  extract_table_from_image
    (mkPageImage (Ok "") (Ok [mkOcrRow 40 (Some "A") 10 100 20;
                              mkOcrRow 95 None 0 0 300;
                              mkOcrRow 95 (Some "  ") 50 100 20]) true) = None /\
  extract_table_from_image
    (mkPageImage (Ok "") (Ok [mkOcrRow (-1) None 0 0 300;
                              mkOcrRow (-1) None 0 0 300]) false) = None.
Proof.
  split; [|split; [|split]].
  - apply (proj1 (proj2 (proj2 (extract_table_never_raises _))) OcrEngineError).
    reflexivity.
  - apply (proj2 (proj2 (proj2 (proj2 (extract_table_never_raises _)))) []);
      [reflexivity|constructor].
  - eapply (proj2 (proj2 (proj2 (proj2 (extract_table_never_raises _)))));
      [reflexivity|].
    apply Forall_cons_2; [left; reflexivity|].
    apply Forall_cons_2; [right; left; reflexivity|].
    apply Forall_cons_2; [|apply Forall_nil_2].
    right; right. exists "  ". split; reflexivity.
  - apply (proj1 (proj2 (proj2 (proj2 (extract_table_never_raises _))))).
    reflexivity.
Defined.

(** C9.  Whenever the filtered token set is non-empty, the deduplicated
    anchor list is non-empty and the nearest-anchor assignment succeeds and
    gives every token a column index in the range [0, number of anchors):
    the bounds guard of grid assembly is true for every token, so a token is
    never dropped by it. *)
Theorem column_index_in_range (raw : list OcrRow) :
  let data := filter_nonblank (filter_notna (filter_conf raw)) in
  let column_centers := refine_centers (cluster (sort_values data)) in
  data <> [] ->
  column_centers <> [] /\
  exists data',
    assign_columns column_centers (sort_values data) = Ok data' /\
    length data' = length data /\
    Forall (fun w => 0 <= column_idx w < Z.of_nat (length column_centers)) data' /\
    Forall (fun w =>
              (0 <=? column_idx w)
              && (column_idx w <? Z.of_nat (length column_centers)) = true /\
              forall row_output,
                place (length column_centers) row_output w
                = let cell := default "" (row_output !! Z.to_nat (column_idx w)) in
                  if PyStr.truthy cell
                  then <[Z.to_nat (column_idx w)
                         := (cell ++ (" " ++ w_text w))%string]> row_output
                  else <[Z.to_nat (column_idx w) := w_text w]> row_output) data'.
Proof.
  intros data column_centers Hne.
  assert (Hs : sort_values data <> []) by now apply sort_values_nonempty.
  assert (Hc : column_centers <> []) by now apply refine_centers_nonempty, cluster_nonempty.
  split; [assumption|].
  destruct (assign_columns_Ok column_centers (sort_values data) Hc) as (data' & E & H2).
  exists data'. split; [assumption|]. split.
  { apply Forall2_length in H2. now rewrite <- H2, sort_values_length. }
  assert (Hg : Forall (fun w => guard (length column_centers) w = true) data').
  { clear E Hs Hc. clearbody column_centers.
    induction H2 as [|w w' l l' (_ & _ & _ & Hg) _ IH]; constructor; auto. }
  split.
  - eapply Forall_impl; [exact Hg|]. intros w H. unfold guard in H.
    apply andb_prop in H. lia.
  - eapply Forall_impl; [exact Hg|]. intros w H. split; [exact H|].
    intros row. unfold place. unfold guard in H. now rewrite H.
Qed.

Lemma column_index_in_range_witness :
  refine_centers (cluster (prepare Fixtures.abcd)) <> [] /\
  exists data',
    assign_columns (refine_centers (cluster (prepare Fixtures.abcd)))
                   (prepare Fixtures.abcd) = Ok data' /\
    length data' = 4%nat.
Proof.
  assert (H : filter_nonblank (filter_notna (filter_conf Fixtures.abcd)) <> [])
    by (vm_compute; discriminate).
  destruct (column_index_in_range Fixtures.abcd H) as (Hc & data' & Ha & Hl & _).
  split; [exact Hc|]. exists data'. split; [exact Ha|exact Hl].
Defined.

(** C10.  Every row of a returned table has at least one non-empty cell: a
    row is only emitted from a non-empty bucket, every word of the bucket has
    an in-range column and a non-empty text, and a written cell is never
    emptied again. *)
Theorem table_rows_have_text (image : PageImage) (df : DataFrame) :
  extract_table_from_image image = Some df ->
  Forall has_text (rows df).
Proof.
  intros H.
  destruct (extract_table_Some _ _ H) as (raw & d & tr & _ & Hne & Ha & -> & _ & Hv).
  destruct (verdict_Some _ _ Hv) as (_ & _ & ->). simpl.
  apply Forall_map.
  pose proof (assigned_words_ok raw d Hne Ha) as Hok.
  eapply Forall_impl; [|intros row Hrow; apply pad_has_text, Hrow].
  apply segment_rows_Forall. intros bucket Hb Hin.
  apply build_row_has_text.
  - destruct bucket; [contradiction|discriminate].
  - rewrite List.Forall_forall in Hok, Hin |- *. intros w Hw. apply Hok, Hin, Hw.
Qed.

Lemma table_rows_have_text_witness :
  Forall has_text [["A"; "B"]; ["C"; "D"]].
Proof.
  exact (table_rows_have_text Fixtures.abcd_page
           (mkDataFrame ["Col1"; "Col2"] [["A"; "B"]; ["C"; "D"]]) eq_refl).
Defined.

(** C3.  A page whose cleaned text is shorter than the threshold is marked
    illegible and table extraction is not attempted for it.  The text stored
    in its record is the empty string in [ocrv1.py]; in [Tesseract_ocr.py]
    the record keeps the cleaned text.  Evaluated on a page whose cleaned
    text has 49 characters. *)
Theorem illegible_page_record (fs : FileSystem) (txt_ok : bool) (n : nat)
        (words : result (list OcrRow)) (is_str : bool) :
  let out := process_page fs n (mkPageImage (Ok Fixtures.text49) words is_str) in
  let out1 := OcrV1.process_page txt_ok n (OcrV1.mkPageImage (Ok Fixtures.text49)) in
  String.length (clean_text Fixtures.text49) = 49%nat /\
  is_legible (record out) = false /\
  illegible out = [n] /\
  effects out = [] /\
  has_table (record out) = false /\
  table_data (record out) = None /\
  extracted_text (record out) = Fixtures.text49 /\
  extracted_text (record out) <> "" /\
  OcrV1.records out1 = [OcrV1.mkPageResult n "" false] /\
  OcrV1.illegible out1 = [n].
Proof.
  intros out out1. subst out out1.
  rewrite process_page_too_short, v1_process_page_too_short by reflexivity.
  simpl. repeat split; try reflexivity. discriminate.
Qed.

(** * Further properties *)

Import GridSpec PageSpec.

(** ** Text clean-up *)

Lemma string_length_app (a b : string) :
  String.length (a ++ b) = (String.length a + String.length b)%nat.
Proof. induction a as [|c a IH]; simpl; [reflexivity|now rewrite IH]. Qed.

Lemma join_cons_char (sep : string) (c : ascii) (w : string) (ws : list string) :
  PyStr.join sep (String c w :: ws) = String c (PyStr.join sep (w :: ws)).
Proof. destruct ws; reflexivity. Qed.

Lemma join_cons2 (sep w w' : string) (ws : list string) :
  PyStr.join sep (w :: w' :: ws) = w ++ sep ++ PyStr.join sep (w' :: ws).
Proof. reflexivity. Qed.

Lemma split_starts_word (s : string) :
  PyStr.starts_word s = true -> PyStr.split s <> [].
Proof.
  destruct s as [|c s']; simpl; [discriminate|].
  intros H. apply negb_true_iff in H. rewrite H.
  destruct (PyStr.starts_word s'); [destruct (PyStr.split s')|]; discriminate.
Qed.

Lemma split_words (s : string) : Forall is_word (PyStr.split s).
Proof.
  induction s as [|c s' IH]; simpl; [constructor|].
  destruct (PyStr.is_space c) eqn:Ec; [assumption|].
  destruct (PyStr.starts_word s').
  - destruct (PyStr.split s') as [|w ws].
    + repeat constructor; [discriminate|assumption].
    + apply Forall_cons_1 in IH. destruct IH as [[_ Hw] Hws].
      constructor; [|assumption]. split; [discriminate|]. now split.
  - constructor; [|assumption]. split; [discriminate|]. now split.
Qed.

(** Joining the words back never gives more characters than the text had;
    a text that starts with whitespace loses at least one. *)
Lemma join_split_length (s : string) :
  (String.length (PyStr.join " " (PyStr.split s)) <= String.length s)%nat /\
  (PyStr.starts_word s = false -> PyStr.split s <> [] ->
   (S (String.length (PyStr.join " " (PyStr.split s))) <= String.length s)%nat).
Proof.
  induction s as [|c s' [IH1 IH2]]; [split; [simpl; lia|intros _ H; now destruct H]|].
  cbn [PyStr.split PyStr.starts_word String.length].
  destruct (PyStr.is_space c) eqn:Ec; cbn [negb].
  - split; [lia|intros _ _; lia].
  - split; [|discriminate].
    destruct (PyStr.starts_word s') eqn:Es.
    + destruct (PyStr.split s') as [|w ws] eqn:Ew; [simpl; lia|].
      rewrite join_cons_char. cbn [String.length]. lia.
    + destruct (PyStr.split s') as [|w ws] eqn:Ew; [simpl; lia|].
      rewrite join_cons2, !string_length_app. cbn [String.length].
      specialize (IH2 eq_refl ltac:(discriminate)). lia.
Qed.

Lemma rstrip_cons (c : ascii) (s : string) :
  PyStr.rstrip s <> "" -> PyStr.rstrip (String c s) = String c (PyStr.rstrip s).
Proof. simpl. destruct (PyStr.rstrip s); [congruence|reflexivity]. Qed.

Lemma rstrip_app (a b : string) :
  PyStr.rstrip b <> "" -> PyStr.rstrip (a ++ b) = a ++ PyStr.rstrip b.
Proof.
  intros H. induction a as [|c a' IH]; [reflexivity|].
  change (String c a' ++ b) with (String c (a' ++ b)).
  rewrite rstrip_cons; rewrite IH; [reflexivity|].
  destruct a'; [assumption|discriminate].
Qed.

Lemma rstrip_word (w : string) : is_word w -> PyStr.rstrip w = w.
Proof.
  intros [Hne Hns]. induction w as [|c w' IH]; [congruence|].
  destruct Hns as [Hc Hw']. destruct w' as [|c' w''].
  - simpl. now rewrite Hc.
  - rewrite rstrip_cons; rewrite IH; auto; discriminate.
Qed.

Lemma rstrip_join (ws : list string) :
  Forall is_word ws -> PyStr.rstrip (PyStr.join " " ws) = PyStr.join " " ws.
Proof.
  induction ws as [|w ws IH]; [reflexivity|]. intros H.
  apply Forall_cons_1 in H. destruct H as [Hw Hws].
  destruct ws as [|w' ws']; [now apply rstrip_word|].
  rewrite join_cons2. specialize (IH Hws).
  assert (Hne : PyStr.join " " (w' :: ws') <> "").
  { apply Forall_cons_1 in Hws. destruct Hws as [[Hn _] _].
    destruct w'; [congruence|]. rewrite join_cons_char. discriminate. }
  assert (Hr : PyStr.rstrip (" " ++ PyStr.join " " (w' :: ws'))
               = " " ++ PyStr.join " " (w' :: ws')).
  { change (" " ++ PyStr.join " " (w' :: ws'))
      with (String " " (PyStr.join " " (w' :: ws'))).
    rewrite rstrip_cons; rewrite IH; auto. }
  rewrite rstrip_app; rewrite Hr; [reflexivity|discriminate].
Qed.

Lemma lstrip_join (ws : list string) :
  Forall is_word ws -> PyStr.lstrip (PyStr.join " " ws) = PyStr.join " " ws.
Proof.
  destruct ws as [|w ws]; [reflexivity|]. intros H.
  apply Forall_cons_1 in H. destruct H as [[Hne Hns] _].
  destruct w as [|c w']; [congruence|]. rewrite join_cons_char.
  destruct Hns as [Hc _]. simpl. now rewrite Hc.
Qed.

(** The trailing [.strip()] of the clean-up never removes anything. *)
Lemma clean_text_join (text : string) :
  clean_text text = PyStr.join " " (PyStr.split text).
Proof.
  unfold clean_text, PyStr.strip.
  rewrite lstrip_join by apply split_words. apply rstrip_join, split_words.
Qed.

Lemma split_word_sep (w t : string) :
  is_word w -> PyStr.split (w ++ String " " t) = w :: PyStr.split t.
Proof.
  intros [Hne Hns]. induction w as [|c w' IH]; [congruence|].
  destruct Hns as [Hc Hw']. change (String c w' ++ String " " t)
    with (String c (w' ++ String " " t)).
  cbn [PyStr.split]. rewrite Hc. destruct w' as [|c' w''].
  - reflexivity.
  - rewrite IH by (auto; discriminate).
    destruct Hw' as [Hc' _]. simpl. now rewrite Hc'.
Qed.

Lemma split_word (w : string) : is_word w -> PyStr.split w = [w].
Proof.
  intros [Hne Hns]. induction w as [|c w' IH]; [congruence|].
  destruct Hns as [Hc Hw']. cbn [PyStr.split]. rewrite Hc.
  destruct w' as [|c' w'']; [reflexivity|].
  rewrite IH by (auto; discriminate).
  destruct Hw' as [Hc' _]. simpl. now rewrite Hc'.
Qed.

Lemma split_join (ws : list string) :
  Forall is_word ws -> PyStr.split (PyStr.join " " ws) = ws.
Proof.
  induction ws as [|w ws IH]; [reflexivity|]. intros H.
  apply Forall_cons_1 in H. destruct H as [Hw Hws].
  destruct ws as [|w' ws']; [now apply split_word|].
  rewrite join_cons2. change (" " ++ ?x) with (String " " x).
  rewrite split_word_sep by assumption. now rewrite IH.
Qed.

Lemma split_nil_iff (s : string) : PyStr.split s = [] <-> all_space s.
Proof.
  induction s as [|c s' IH]; simpl; [tauto|].
  destruct (PyStr.is_space c) eqn:Ec.
  - rewrite IH. tauto.
  - split; [|intros [H _]; discriminate].
    destruct (PyStr.starts_word s'); [destruct (PyStr.split s')|]; discriminate.
Qed.

Lemma join_nil_iff (ws : list string) :
  Forall is_word ws -> PyStr.join " " ws = "" <-> ws = [].
Proof.
  intros H. split; [|intros ->; reflexivity].
  destruct ws as [|w ws]; [reflexivity|].
  apply Forall_cons_1 in H. destruct H as [[Hne _] _].
  destruct w; [congruence|]. rewrite join_cons_char. discriminate.
Qed.

(** ** Anchor refinement *)

Lemma set_insert_In (z x : Z) (l : list Z) :
  In x (set_insert z l) <-> x = z \/ In x l.
Proof.
  induction l as [|y r IH]; simpl; [intuition|].
  destruct (z <? y) eqn:E1; [simpl; intuition|].
  destruct (z =? y) eqn:E2.
  - apply Z.eqb_eq in E2. subst. simpl. intuition.
  - simpl. rewrite IH. intuition.
Qed.

Lemma sorted_set_In (x : Z) (l : list Z) : In x (sorted_set l) <-> In x l.
Proof.
  induction l as [|y r IH]; [reflexivity|].
  change (sorted_set (y :: r)) with (set_insert y (sorted_set r)).
  rewrite set_insert_In, IH. simpl. intuition.
Qed.

Lemma set_insert_HdRel (z x : Z) (l : list Z) :
  x < z -> HdRel Z.lt x l -> HdRel Z.lt x (set_insert z l).
Proof.
  intros Hxz H. destruct l as [|y r]; simpl; [now constructor|].
  destruct (z <? y); [now constructor|]. destruct (z =? y); [assumption|].
  constructor. now inversion H.
Qed.

Lemma set_insert_Sorted (z : Z) (l : list Z) :
  Sorted Z.lt l -> Sorted Z.lt (set_insert z l).
Proof.
  induction 1 as [|y r Hr IH Hy]; simpl; [repeat constructor|].
  destruct (z <? y) eqn:E1.
  - apply Z.ltb_lt in E1. repeat constructor; assumption.
  - destruct (z =? y) eqn:E2; [now constructor|].
    apply Z.ltb_ge in E1. apply Z.eqb_neq in E2.
    constructor; [assumption|]. apply set_insert_HdRel; [lia|assumption].
Qed.

Lemma sorted_set_Sorted (l : list Z) : Sorted Z.lt (sorted_set l).
Proof.
  induction l as [|y r IH]; [constructor|].
  change (sorted_set (y :: r)) with (set_insert y (sorted_set r)).
  now apply set_insert_Sorted.
Qed.

(** On a strictly increasing list [sorted(list(set(l)))] changes nothing. *)
Lemma sorted_set_fixed (l : list Z) : Sorted Z.lt l -> sorted_set l = l.
Proof.
  induction 1 as [|y r Hr IH Hy]; [reflexivity|].
  change (sorted_set (y :: r)) with (set_insert y (sorted_set r)).
  rewrite IH. destruct Hy as [|x r' Hyx]; [reflexivity|].
  simpl. apply Z.ltb_lt in Hyx. now rewrite Hyx.
Qed.

Lemma set_insert_length (z : Z) (l : list Z) :
  (length (set_insert z l) <= S (length l))%nat.
Proof.
  induction l as [|y r IH]; simpl; [lia|].
  destruct (z <? y); [simpl; lia|]. destruct (z =? y); simpl; lia.
Qed.

Lemma sorted_set_length (l : list Z) : (length (sorted_set l) <= length l)%nat.
Proof.
  induction l as [|y r IH]; [reflexivity|].
  change (sorted_set (y :: r)) with (set_insert y (sorted_set r)).
  pose proof (set_insert_length y (sorted_set r)). simpl. lia.
Qed.

Lemma quantize_multiple (x : Q) : exists k, quantize x = k * COLUMN_TOLERANCE.
Proof. unfold quantize. eexists. reflexivity. Qed.

(** ** Clustering *)

Lemma cluster_step_length (cs : list Q) (w : Word) :
  (length (cluster_step cs w) <= S (length cs))%nat.
Proof.
  destruct (cluster_step_cases cs w) as [(j & c & _ & _ & _ & ->)|[_ ->]].
  - rewrite length_insert. lia.
  - rewrite length_app. simpl. lia.
Qed.

Lemma cluster_length (data : list Word) : (length (cluster data) <= length data)%nat.
Proof.
  unfold cluster.
  assert (H : forall cs, (length (fold_left cluster_step data cs)
                          <= length cs + length data)%nat).
  { induction data as [|w r IH]; intros cs; simpl; [lia|].
    specialize (IH (cluster_step cs w)).
    pose proof (cluster_step_length cs w). lia. }
  apply (H []).
Qed.

Lemma refine_centers_In (z : Z) (cs : list Q) :
  In z (refine_centers cs) <-> exists c, In c cs /\ z = quantize c.
Proof.
  unfold refine_centers. rewrite !sorted_set_In, in_map_iff.
  split; intros (c & H1 & H2); exists c; auto.
Qed.

Lemma refine_centers_length (cs : list Q) :
  (length (refine_centers cs) <= length cs)%nat.
Proof.
  unfold refine_centers.
  pose proof (sorted_set_length (sorted_set (map quantize cs))).
  pose proof (sorted_set_length (map quantize cs)).
  rewrite length_map in *. lia.
Qed.

(** ** Cell contents *)

Lemma string_app_assoc (a b c : string) : (a ++ b) ++ c = a ++ (b ++ c).
Proof. induction a as [|x a IH]; simpl; [reflexivity|now rewrite IH]. Qed.

Lemma join_snoc (sep x : string) (l : list string) :
  l <> [] -> PyStr.join sep (l ++ [x]) = PyStr.join sep l ++ (sep ++ x).
Proof.
  induction l as [|y l' IH]; [congruence|]. intros _.
  destruct l' as [|z l'']; [reflexivity|].
  change ((y :: z :: l'') ++ [x])%list with (y :: (z :: l'') ++ [x])%list.
  change ((z :: l'') ++ [x])%list with (z :: (l'' ++ [x]))%list.
  rewrite !join_cons2.
  change (z :: l'' ++ [x])%list with ((z :: l'') ++ [x])%list.
  rewrite IH by discriminate. now rewrite !string_app_assoc.
Qed.

Lemma join_nonempty (sep : string) (l : list string) :
  Forall (fun s => s <> "") l -> l <> [] -> PyStr.truthy (PyStr.join sep l) = true.
Proof.
  destruct l as [|y l']; [congruence|]. intros H _.
  apply Forall_cons_1 in H. destruct H as [Hy _].
  destruct y; [congruence|]. now rewrite join_cons_char.
Qed.

Lemma cell_words_cons (j : nat) (w : Word) (ws : list Word) :
  cell_words j (w :: ws)
  = if column_idx w =? Z.of_nat j then w_text w :: cell_words j ws
    else cell_words j ws.
Proof. unfold cell_words. simpl. now destruct (_ =? _). Qed.

(** Filling a row whose cells hold the joined texts [acc] leaves in each
    cell the joined texts of [acc] followed by the row's words of that
    column. *)
Lemma fold_place_cells (ncols : nat) (ws : list Word) :
  forall (row : list string) (acc : nat -> list string),
    length row = ncols ->
    (forall j, (j < ncols)%nat -> row !! j = Some (PyStr.join " " (acc j))) ->
    (forall j, Forall (fun s => s <> "") (acc j)) ->
    Forall (fun w => guard ncols w = true /\ nonblank w) ws ->
    forall j, (j < ncols)%nat ->
      fold_left (place ncols) ws row !! j
      = Some (PyStr.join " " (acc j ++ cell_words j ws)).
Proof.
  induction ws as [|w r IH]; intros row acc Hlen Hrow Hacc Hws j Hj.
  - simpl. unfold cell_words. simpl. rewrite app_nil_r. now apply Hrow.
  - apply Forall_cons_1 in Hws. destruct Hws as [[Hg Hw] Hr].
    pose proof Hg as Hg'. unfold guard in Hg'. apply andb_prop in Hg'.
    destruct Hg' as [H0 H1].
    set (k := Z.to_nat (column_idx w)).
    assert (Hk : (k < ncols)%nat) by (subst k; lia).
    set (acc' := fun i => if Nat.eqb i k then (acc k ++ [w_text w])%list else acc i).
    assert (Hplace : place ncols row w
                     = <[k := PyStr.join " " (acc' k)]> row).
    { unfold place. unfold guard in Hg. rewrite Hg. fold k. rewrite (Hrow k Hk). simpl.
      unfold acc'. rewrite Nat.eqb_refl.
      destruct (acc k) as [|a l] eqn:Ek.
      - reflexivity.
      - rewrite join_nonempty; [|rewrite <- Ek; apply Hacc|discriminate].
        now rewrite join_snoc by discriminate. }
    simpl. rewrite Hplace.
    rewrite (IH _ acc').
    + f_equal. f_equal. rewrite cell_words_cons. unfold acc'.
      destruct (Nat.eqb_spec j k) as [->|Hne].
      * replace (column_idx w =? Z.of_nat k) with true
          by (symmetry; apply Z.eqb_eq; subst k; lia).
        now rewrite <- app_assoc.
      * replace (column_idx w =? Z.of_nat j) with false; [reflexivity|].
        symmetry. apply Z.eqb_neq. subst k. lia.
    + now rewrite length_insert.
    + intros i Hi. destruct (Nat.eqb_spec i k) as [->|Hne].
      * apply list_lookup_insert_eq. lia.
      * rewrite list_lookup_insert_ne by congruence.
        unfold acc'. apply Nat.eqb_neq in Hne. rewrite Hne. now apply Hrow.
    + intros i. unfold acc'. destruct (Nat.eqb i k); [|apply Hacc].
      apply Forall_app. split; [apply Hacc|].
      constructor; [|constructor]. now apply truthy_nonempty.
    + assumption.
    + assumption.
Qed.

Lemma lookup_map_seq {A : Type} (f : nat -> A) (n j : nat) :
  (j < n)%nat -> map f (seq 0 n) !! j = Some (f j).
Proof.
  intros H. rewrite lookup_map. rewrite lookup_seq_lt by assumption. reflexivity.
Qed.

(** A row of the grid, cell by cell: each cell is the texts of the row's
    words of that column, in reading order, joined by single spaces. *)
Lemma build_row_cells (ncols : nat) (ws : list Word) :
  Forall (fun w => guard ncols w = true /\ nonblank w) ws ->
  build_row ncols ws
  = map (fun j => PyStr.join " " (cell_words j ws)) (seq 0 ncols).
Proof.
  intros H. apply list_eq. intros j.
  destruct (Nat.lt_ge_cases j ncols) as [Hj|Hj].
  - rewrite lookup_map_seq by assumption. unfold build_row.
    rewrite (fold_place_cells ncols ws _ (fun _ => [])); auto.
    + apply length_replicate.
    + intros i Hi. now apply lookup_replicate_2.
  - rewrite !lookup_ge_None_2; [reflexivity| |].
    + now rewrite length_map, length_seq.
    + now rewrite build_row_length.
Qed.

(** ** Assignment *)

Lemma mapM_Ok {A B : Type} (f : A -> result B) (l : list A) (l' : list B) :
  mapM f l = Ok l' -> Forall2 (fun a b => f a = Ok b) l l'.
Proof.
  revert l'. induction l as [|a r IH]; intros l'; simpl.
  - intros [= <-]. constructor.
  - destruct (f a) as [b|e] eqn:Ea; simpl; [|discriminate].
    destruct (mapM f r) as [bs|e] eqn:Er; simpl; [|discriminate].
    intros [= <-]. constructor; auto.
Qed.

Lemma pad_uniform (n : nat) (row : list string) :
  length row = n -> pad n row = row.
Proof. intros H. unfold pad. rewrite H, Nat.sub_diag. simpl. apply app_nil_r. Qed.

Lemma chain_impl_In {A : Type} (R R' : A -> A -> Prop) (l : list A) :
  (forall x y, In x l -> In y l -> R x y -> R' x y) -> chain R l -> chain R' l.
Proof.
  induction l as [|x r IH]; [auto|]. intros H.
  destruct r as [|y r']; [auto|]. intros [Hxy Hc]. split.
  - apply H; simpl; auto.
  - apply IH; [|assumption]. intros a b Ha Hb. apply H; simpl; auto.
Qed.

Lemma concat_length_ge (buckets : list (list Word)) :
  Forall row_ok buckets -> (length buckets <= length (concat buckets))%nat.
Proof.
  induction 1 as [|b bs Hb _ IH]; [reflexivity|].
  cbn [concat length]. rewrite length_app.
  destruct b; [contradiction|]. cbn [length]. lia.
Qed.

Lemma segment_rows_length (data : list Word) :
  (length (segment_rows (fun b => b) data) <= length data)%nat.
Proof.
  destruct (segment_rows_buckets data) as (Hcat & Hok & _).
  rewrite <- Hcat at 2. now apply concat_length_ge.
Qed.

Lemma Sorted_spaced (l : list Z) :
  Sorted Z.lt l -> Forall (fun a => exists k, a = k * COLUMN_TOLERANCE) l ->
  Sorted (fun a b => a + COLUMN_TOLERANCE <= b) l.
Proof.
  induction 1 as [|x r Hr IH Hx]; intros H; constructor.
  - apply IH. now apply Forall_cons_1 in H.
  - destruct Hx as [|y r' Hxy]; constructor.
    apply Forall_cons_1 in H. destruct H as [(k & ->) H].
    apply Forall_cons_1 in H. destruct H as [(k' & ->) _].
    unfold COLUMN_TOLERANCE in *. lia.
Qed.

(** X3.  The column anchors of lines 80-81 are multiples of the tolerance,
    in ascending order and at least one tolerance apart; they are exactly
    the quantised cluster centres; the second sort-and-deduplicate pass of
    line 81 changes nothing; and there are no more anchors than centres. *)
Theorem anchors_sorted_multiples (column_centers : list Q) :
  let anchors := refine_centers column_centers in
  Sorted (fun a b => a + COLUMN_TOLERANCE <= b) anchors /\
  Forall (fun a => exists k, a = k * COLUMN_TOLERANCE) anchors /\
  (forall a, In a anchors <-> exists c, In c column_centers /\ a = quantize c) /\
  anchors = sorted_set (map quantize column_centers) /\
  (length anchors <= length column_centers)%nat.
Proof.
  intros anchors.
  assert (Hm : Forall (fun a => exists k, a = k * COLUMN_TOLERANCE) anchors).
  { apply List.Forall_forall. intros a Ha. apply refine_centers_In in Ha.
    destruct Ha as (c & _ & ->). apply quantize_multiple. }
  repeat split.
  - apply Sorted_spaced; [apply sorted_set_Sorted|assumption].
  - assumption.
  - apply refine_centers_In.
  - apply refine_centers_In.
  - apply sorted_set_fixed, sorted_set_Sorted.
  - apply refine_centers_length.
Qed.

(** X5.  The assignment pass changes nothing of a word but its column, and
    the column it stores is that of an anchor nearest to the word's left,
    the first such anchor when several are equally near. *)
Theorem assigned_column_is_nearest (column_centers : list Z) (data data' : list Word) :
  assign_columns column_centers data = Ok data' ->
  Forall2 (fun w w' =>
             w_text w' = w_text w /\ w_left w' = w_left w /\
             w_top w' = w_top w /\ w_height w' = w_height w /\
             exists (k : nat) (c : Z),
               column_idx w' = Z.of_nat k /\
               column_centers !! k = Some c /\
               Forall (fun c' => Z.abs (c - w_left w) <= Z.abs (c' - w_left w))
                      column_centers /\
               (forall j c', (j < k)%nat -> column_centers !! j = Some c' ->
                             Z.abs (c - w_left w) < Z.abs (c' - w_left w)))
          data data'.
Proof.
  intros H. apply mapM_Ok in H.
  eapply Forall2_impl; [exact H|]. intros w w' Hw. simpl in Hw.
  unfold assign_column in Hw.
  destruct (closest_col_idx column_centers (w_left w)) as [k|e] eqn:Ek;
    simpl in Hw; [|discriminate].
  injection Hw as <-. simpl. repeat split.
  destruct (closest_col_idx_nearest _ _ _ Ek) as (c & H1 & H2 & H3).
  exists k, c. auto.
Qed.

(** X7.  The content of a returned table, cell by cell: row i, column j holds
    the texts of the words of the i-th row bucket that were assigned column
    j, in reading order, joined by single spaces (empty when there is
    none); the columns are named Col1 .. ColN for the N anchors. *)
Theorem table_cells (image : PageImage) (df : DataFrame) :
  extract_table_from_image image = Some df ->
  exists raw data',
    image_to_data image = Ok raw /\
    assign_columns (refine_centers (cluster (prepare raw))) (prepare raw) = Ok data' /\
    columns df = column_names (length (refine_centers (cluster (prepare raw)))) /\
    rows df
    = map (fun bucket =>
             map (fun j => PyStr.join " " (cell_words j bucket))
                 (seq 0 (length (refine_centers (cluster (prepare raw))))))
          (segment_rows (fun b => b) data').
Proof.
  intros H.
  destruct (extract_table_Some _ _ H) as (raw & d & tr & Hraw & Hne & Ha & Htr & _ & Hv).
  destruct (verdict_Some _ _ Hv) as (H1 & _ & ->). simpl.
  set (n := length (refine_centers (cluster (prepare raw)))) in *.
  assert (Hn : max_len tr = n).
  { apply max_len_uniform; [destruct tr; [simpl in H1; lia|discriminate]|].
    subst tr. apply grid_rows_length. }
  exists raw, d. split; [assumption|]. split; [assumption|].
  split; [now rewrite Hn|].
  rewrite Hn. subst tr. rewrite segment_rows_map, map_map.
  pose proof (assigned_words_ok raw d Hne Ha) as Hok. fold n in Hok.
  destruct (segment_rows_buckets d) as (Hcat & _ & _).
  apply map_ext_in. intros b Hb.
  rewrite pad_uniform by apply build_row_length.
  apply build_row_cells. rewrite List.Forall_forall in Hok |- *.
  intros w Hw. apply Hok. rewrite <- Hcat. apply in_concat. eauto.
Qed.

(** X8.  The padding of lines 131-134 never adds a cell: the rows of a
    returned table are the assembled rows as they are. *)
Theorem padding_adds_nothing (image : PageImage) (df : DataFrame)
        (raw : list OcrRow) (table_rows : list (list string)) :
  image_to_data image = Ok raw ->
  infer_grid (prepare raw) = Ok table_rows ->
  extract_table_from_image image = Some df ->
  rows df = table_rows.
Proof.
  intros Hraw Hg H.
  destruct (extract_table_Some _ _ H) as (raw' & d & tr & Hraw' & Hne & Ha & Htr & Hg' & Hv).
  rewrite Hraw in Hraw'. injection Hraw' as <-. rewrite Hg in Hg'. injection Hg' as <-.
  destruct (verdict_Some _ _ Hv) as (H1 & _ & ->). simpl.
  set (n := length (refine_centers (cluster (prepare raw)))) in *.
  assert (Hu : Forall (fun row => length row = n) table_rows)
    by (rewrite Htr; apply grid_rows_length).
  assert (Hn : max_len table_rows = n).
  { apply max_len_uniform; [destruct table_rows; [simpl in H1; lia|discriminate]|assumption]. }
  rewrite Hn. clear -Hu. induction Hu as [|row rs Hrow _ IH]; [reflexivity|].
  simpl. now rewrite pad_uniform, IH.
Qed.

(** X6.  For words of non-negative height, the rows come out top to bottom:
    the first word of each row lies strictly below the first word of the
    row before it. *)
Theorem rows_top_to_bottom (data : list Word) :
  Forall (fun w => 0 <= w_height w) data ->
  chain (fun b1 b2 => first_top b1 < first_top b2) (segment_rows (fun b => b) data).
Proof.
  intros H. destruct (segment_rows_buckets data) as (Hcat & _ & Hchain).
  eapply chain_impl_In; [|exact Hchain].
  intros [|h1 t1] [|h2 t2] _ Hin2 Hb; simpl in Hb; try contradiction.
  apply starts_new_row_iff in Hb. simpl.
  assert (Hh : 0 <= w_height h2).
  { rewrite List.Forall_forall in H. apply H. rewrite <- Hcat.
    apply in_concat. exists (h2 :: t2). split; [assumption|now left]. }
  lia.
Qed.

(** ** Filters *)

Lemma accepted_app (a b : list OcrRow) :
  accepted (a ++ b) = (accepted a ++ accepted b)%list.
Proof.
  unfold accepted, filter_nonblank, filter_notna, filter_conf.
  now rewrite List.filter_app, map_app, concat_app, List.filter_app.
Qed.

(** X2.  As long as the text column keeps its dtype, a row with confidence
    at most 70, with a NaN text or with a blank text has no influence on
    table extraction: removing it from the OCR frame, wherever it stands,
    leaves the result unchanged. *)
Theorem dropped_rows_are_ignored (whole_page : result string)
        (raw1 raw2 : list OcrRow) (r : OcrRow) (is_str : bool) :
  dropped r ->
  extract_table_from_image
    (mkPageImage whole_page (Ok (raw1 ++ r :: raw2)%list) is_str)
  = extract_table_from_image (mkPageImage whole_page (Ok (raw1 ++ raw2)%list) is_str).
Proof.
  intros Hr.
  assert (E : accepted (raw1 ++ r :: raw2) = accepted (raw1 ++ raw2)).
  { rewrite !accepted_app. f_equal.
    change (r :: raw2) with ([r] ++ raw2)%list. rewrite accepted_app.
    unfold accepted at 1. rewrite filter_dropped; [reflexivity|].
    constructor; [assumption|constructor]. }
  unfold extract_table_from_image, extract_table_body, str_accessor. simpl.
  destruct is_str; [|reflexivity]. simpl.
  unfold accepted in E. now rewrite E.
Qed.

(** ** Sizes *)

Lemma assign_columns_length (cc : list Z) (data data' : list Word) :
  assign_columns cc data = Ok data' -> length data' = length data.
Proof. intros H. apply mapM_Ok, Forall2_length in H. auto. Qed.

(** X9.  A returned table has at least two rows and two columns, and neither
    more rows nor more columns than there are accepted words. *)
Theorem table_size_bounds (image : PageImage) (raw : list OcrRow) (df : DataFrame) :
  image_to_data image = Ok raw ->
  extract_table_from_image image = Some df ->
  (2 <= length (rows df) <= length (accepted raw))%nat /\
  (2 <= length (columns df) <= length (accepted raw))%nat.
Proof.
  intros Hraw H.
  destruct (extract_table_Some _ _ H) as (raw' & d & tr & Hraw' & Hne & Ha & Htr & _ & Hv).
  rewrite Hraw in Hraw'. injection Hraw' as <-.
  destruct (verdict_Some _ _ Hv) as (H1 & H2 & ->). simpl.
  rewrite length_map, column_names_length.
  assert (Hlen : length (prepare raw) = length (accepted raw))
    by apply sort_values_length.
  set (n := length (refine_centers (cluster (prepare raw)))) in *.
  assert (Hn : max_len tr = n).
  { apply max_len_uniform; [destruct tr; [simpl in H1; lia|discriminate]|].
    subst tr. apply grid_rows_length. }
  split; split; try lia.
  - rewrite Htr, segment_rows_map, length_map.
    pose proof (segment_rows_length d). apply assign_columns_length in Ha. lia.
  - rewrite Hn. subst n.
    pose proof (refine_centers_length (cluster (prepare raw))).
    pose proof (cluster_length (prepare raw)). lia.
Qed.

(** ** Column names *)

Lemma str_of_nat_inj (a b : nat) : PyStr.str_of_nat a = PyStr.str_of_nat b -> a = b.
Proof.
  unfold PyStr.str_of_nat. intros H.
  apply (f_equal NilEmpty.uint_of_string) in H. rewrite !NilEmpty.usu in H.
  injection H as H. now apply Unsigned.to_uint_inj.
Qed.

(** X10.  The column names Col1 .. ColN are pairwise distinct, one per
    column. *)
Theorem column_names_distinct (num_cols : nat) :
  List.NoDup (column_names num_cols) /\
  length (column_names num_cols) = num_cols.
Proof.
  split; [|apply column_names_length].
  unfold column_names. apply Injective_map_NoDup; [|apply seq_NoDup].
  intros a b H. injection H as H. apply str_of_nat_inj in H. lia.
Qed.

(** ** Reading order *)

Lemma insert_sorted_stable (t l : Z) (w : Word) (data : list Word) :
  List.filter (same_key t l) (insert_sorted w data)
  = List.filter (same_key t l) (w :: data).
Proof.
  induction data as [|x r IH]; [reflexivity|].
  cbn [insert_sorted]. destruct (reading_le w x) eqn:E; [reflexivity|].
  cbn [List.filter] in *. rewrite IH.
  destruct (same_key t l w) eqn:Ew; [|reflexivity].
  destruct (same_key t l x) eqn:Ex; [|reflexivity].
  unfold same_key in Ew, Ex. unfold reading_le in E.
  apply andb_prop in Ew, Ex. destruct Ew as [E1 E2], Ex as [E3 E4].
  apply Z.eqb_eq in E1, E2, E3, E4.
  apply orb_false_elim in E. destruct E as [_ E].
  apply andb_false_iff in E. destruct E as [E|E].
  - apply Z.eqb_neq in E. congruence.
  - apply Z.leb_gt in E. lia.
Qed.

Lemma sort_values_stable (t l : Z) (data : list Word) :
  List.filter (same_key t l) (sort_values data) = List.filter (same_key t l) data.
Proof.
  induction data as [|w r IH]; [reflexivity|].
  change (sort_values (w :: r)) with (insert_sorted w (sort_values r)).
  rewrite insert_sorted_stable. cbn [List.filter]. now rewrite IH.
Qed.

Lemma reading_le_order (a b : Word) : reading_le a b = true <-> reading_order a b.
Proof.
  unfold reading_le, reading_order.
  rewrite orb_true_iff, andb_true_iff, Z.ltb_lt, Z.eqb_eq, Z.leb_le. tauto.
Qed.

Lemma reading_order_trans (a b c : Word) :
  reading_order a b -> reading_order b c -> reading_order a c.
Proof. unfold reading_order. lia. Qed.

Lemma sort_values_StronglySorted (data : list Word) :
  StronglySorted reading_order (sort_values data).
Proof.
  apply Sorted_StronglySorted; [intros a b c; apply reading_order_trans|].
  pose proof (sort_values_Sorted data) as H.
  induction H as [|x r Hr IH Hx]; constructor; [assumption|].
  destruct Hx as [|y r' Hxy]; constructor. now apply reading_le_order.
Qed.

(** X1.  The frame handed to column inference holds exactly the accepted
    words (a permutation of them), in reading order: non-decreasing top,
    and non-decreasing left among equal tops.  Words with the same top and
    left keep the order the OCR gave them. *)
Theorem prepared_frame_in_reading_order (raw : list OcrRow) :
  Permutation (prepare raw) (accepted raw) /\
  StronglySorted reading_order (prepare raw) /\
  (forall t l, List.filter (same_key t l) (prepare raw)
               = List.filter (same_key t l) (accepted raw)).
Proof.
  split; [apply sort_values_perm|]. split; [apply sort_values_StronglySorted|].
  intros t l. apply sort_values_stable.
Qed.

(** ** The page loop of Tesseract_ocr.py *)

Lemma extract_table_not_empty (image : PageImage) (df : DataFrame) :
  extract_table_from_image image = Some df -> df_empty df = false.
Proof.
  intros H.
  destruct (extract_table_Some _ _ H) as (raw & d & tr & _ & _ & _ & _ & _ & Hv).
  destruct (verdict_Some _ _ Hv) as (H1 & H2 & ->). unfold df_empty. simpl.
  destruct tr as [|r0 rs]; [simpl in H1; lia|]. simpl.
  pose proof (column_names_length (max_len (r0 :: rs))) as Hl.
  destruct (column_names (max_len (r0 :: rs))); [simpl in Hl; lia|reflexivity].
Qed.

Lemma process_page_gate_passed (fs : FileSystem) (n : nat) (image : PageImage)
      (text : string) :
  image_to_string image = Ok text ->
  too_short (clean_text text) = false ->
  let table := extract_table_from_image image in
  let ws := writes_of fs n (clean_text text) table in
  process_page fs n image
  = mkPageOutcome
      (mkPageResult n (clean_text text) (snd ws)
                    (match table with Some _ => true | None => false end) table)
      (if snd ws then [] else [n])
      (ExtractTable n :: fst ws).
Proof.
  intros Ht Hs. unfold process_page, writes_of. rewrite Ht, Hs.
  destruct (extract_table_from_image image) as [df|] eqn:E; simpl.
  - rewrite (extract_table_not_empty _ _ E). simpl.
    destruct (csv_ok fs), (txt_ok fs); reflexivity.
  - destruct (txt_ok fs); reflexivity.
Qed.

Lemma process_page_gate_failed (fs : FileSystem) (n : nat) (image : PageImage) :
  match image_to_string image with
  | Ok text => too_short (clean_text text) = true
  | Raised _ => True
  end ->
  process_page fs n image
  = mkPageOutcome
      (mkPageResult n (match image_to_string image with
                       | Ok text => clean_text text
                       | Raised _ => ""
                       end) false false None) [n] [].
Proof.
  unfold process_page. destruct (image_to_string image) as [text|e]; [|reflexivity].
  intros ->. reflexivity.
Qed.

Lemma process_page_split (fs : FileSystem) (n : nat) (image : PageImage) :
  (exists text, image_to_string image = Ok text /\
                too_short (clean_text text) = false) \/
  match image_to_string image with
  | Ok text => too_short (clean_text text) = true
  | Raised _ => True
  end.
Proof.
  destruct (image_to_string image) as [text|e]; [|now right].
  destruct (too_short (clean_text text)) eqn:E; [now right|left; eauto].
Qed.

Lemma process_page_illegible (fs : FileSystem) (n : nat) (image : PageImage) :
  let out := process_page fs n image in
  page_number (record out) = n /\
  illegible out = if is_legible (record out) then [] else [n].
Proof.
  destruct (process_page_split fs n image) as [(text & Ht & Hs)|H].
  - rewrite (process_page_gate_passed fs n image text Ht Hs). simpl. auto.
  - rewrite (process_page_gate_failed fs n image H). simpl. auto.
Qed.

Lemma page_loop_illegible (fs : nat -> FileSystem) (n : nat) (pages : list PageImage) :
  concat (map illegible (page_loop fs n pages))
  = map page_number
        (List.filter (fun r => negb (is_legible r))
                     (map record (page_loop fs n pages))).
Proof.
  revert n. induction pages as [|p r IH]; intros n; [reflexivity|].
  cbn [page_loop map concat List.filter]. rewrite IH.
  destruct (process_page_illegible (fs n) n p) as [Hn Hi]. rewrite Hi.
  destruct (is_legible _); simpl; [reflexivity|]. now rewrite Hn.
Qed.

Lemma page_loop_length (fs : nat -> FileSystem) (n : nat) (pages : list PageImage) :
  length (page_loop fs n pages) = length pages.
Proof. revert n. induction pages; intros n; simpl; auto. Qed.

(** X15.  [Tesseract_ocr.py] returns exactly one record per page, numbered
    1, 2, ... in page order, and its list of illegible pages is exactly the
    page numbers of the records that are not legible, in order. *)
Theorem one_record_per_page (fs : nat -> FileSystem) (pages : list PageImage) :
  exists df illegible_pages,
    extract_text_from_pdf fs (Pages pages) = (Some df, illegible_pages) /\
    map page_number df = seq 1 (length pages) /\
    illegible_pages
    = map page_number (List.filter (fun r => negb (is_legible r)) df).
Proof.
  eexists. eexists. split; [reflexivity|]. split.
  - rewrite map_map. apply page_loop_numbers.
  - apply page_loop_illegible.
Qed.

(** X20.  The summary of [Tesseract_ocr.py].  For a document without pages
    the script stops with a KeyError.  Otherwise the total is the number of
    pages, legible and illegible counts add up to it, the table count does
    not exceed it, and the pages listed with tables are as many as the table
    count and are page numbers of the document. *)
Theorem report_counts_add_up (fs : nat -> FileSystem) (pages : list PageImage) :
  match pages with
  | [] => TesseractMain.main fs (Pages pages) = Raised KeyError
  | _ :: _ =>
      exists r,
        TesseractMain.main fs (Pages pages) = Ok (Some r) /\
        TesseractMain.total_pages r = length pages /\
        (TesseractMain.legible_count r + TesseractMain.illegible_count r
         = TesseractMain.total_pages r)%nat /\
        (TesseractMain.tables_found_count r <= TesseractMain.total_pages r)%nat /\
        length (TesseractMain.pages_with_tables r)
        = TesseractMain.tables_found_count r /\
        Forall (fun n => (1 <= n <= length pages)%nat)
               (TesseractMain.pages_with_tables r)
  end.
Proof.
  destruct pages as [|p0 ps]; [reflexivity|].
  set (pages := p0 :: ps).
  exists (TesseractMain.report
            (map record (page_loop fs 1 pages))
            (concat (map illegible (page_loop fs 1 pages)))).
  split; [reflexivity|]. simpl TesseractMain.total_pages.
  unfold TesseractMain.report, TesseractMain.sum_bool.
  cbn [TesseractMain.total_pages TesseractMain.legible_count
       TesseractMain.illegible_count TesseractMain.tables_found_count
       TesseractMain.pages_with_tables].
  set (df := map record (page_loop fs 1 pages)).
  assert (Hn : map page_number df = seq 1 (length pages)).
  { subst df. rewrite map_map. apply page_loop_numbers. }
  assert (Hl : length df = length pages).
  { subst df. now rewrite length_map, page_loop_length. }
  split; [exact Hl|]. split; [|split; [|split]].
  - rewrite page_loop_illegible. fold df. rewrite length_map.
    apply List.filter_length.
  - apply List.filter_length_le.
  - apply length_map.
  - apply List.Forall_forall. intros n Hin. apply in_map_iff in Hin.
    destruct Hin as (r & <- & Hr). apply List.filter_In in Hr. destruct Hr as [Hr _].
    assert (Hs : In (page_number r) (seq 1 (length pages)))
      by (rewrite <- Hn; now apply in_map).
    apply in_seq in Hs. lia.
Qed.

(** X17.  In a page record, [has_table] is set exactly when [table_data] is
    present; a table that is present is the one table extraction returned
    for the page, it has more than one row and column, and the page's text
    passed the legibility gate. *)
Theorem has_table_iff_table_data (fs : FileSystem) (n : nat) (image : PageImage) :
  let r := record (process_page fs n image) in
  (has_table r = true <-> table_data r <> None) /\
  (forall df, table_data r = Some df ->
     extract_table_from_image image = Some df /\
     (1 < length (rows df))%nat /\ (1 < length (columns df))%nat /\
     (MIN_TEXT_LENGTH_FOR_LEGIBILITY <= String.length (extracted_text r))%nat).
Proof.
  destruct (process_page_split fs n image) as [(text & Ht & Hs)|H].
  - rewrite (process_page_gate_passed fs n image text Ht Hs). simpl.
    destruct (extract_table_from_image image) as [df|] eqn:E; simpl.
    + split; [split; [discriminate|reflexivity]|].
      intros df' [= <-]. split; [reflexivity|].
      destruct (extract_table_Some _ _ E) as (raw & d & tr & _ & _ & _ & _ & _ & Hv).
      destruct (verdict_Some _ _ Hv) as (H1 & H2 & ->). simpl.
      rewrite length_map, column_names_length.
      unfold too_short in Hs. apply Nat.ltb_ge in Hs. auto.
    + split; [split; [discriminate|congruence]|discriminate].
  - rewrite (process_page_gate_failed fs n image H). simpl.
    split; [split; [discriminate|congruence]|discriminate].
Qed.

Ltac effect_cases H :=
  simpl in H;
  repeat (destruct H as [H|H];
          [try discriminate H; try (injection H; clear H; intros; subst)|]);
  try contradiction.

(** X18.  Files are only written for a page that passed the gate: a text
    file holds the record's text, which has at least the threshold length;
    a CSV file holds the record's table; a page reported legible had its
    text file written and is not listed as illegible; and nothing is
    written before table extraction was attempted. *)
Theorem files_written_only_past_the_gate (fs : FileSystem) (n : nat) (image : PageImage) :
  let out := process_page fs n image in
  (forall m s, In (WriteText m s) (effects out) ->
     m = n /\ s = extracted_text (record out) /\
     (MIN_TEXT_LENGTH_FOR_LEGIBILITY <= String.length s)%nat) /\
  (forall m df, In (ToCsv m df) (effects out) ->
     m = n /\ table_data (record out) = Some df /\ has_table (record out) = true) /\
  (is_legible (record out) = true ->
     In (WriteText n (extracted_text (record out))) (effects out) /\
     illegible out = []) /\
  (effects out = [] \/ exists rest, effects out = ExtractTable n :: rest).
Proof.
  destruct (process_page_split fs n image) as [(text & Ht & Hs)|H].
  - rewrite (process_page_gate_passed fs n image text Ht Hs).
    assert (Hlen : (MIN_TEXT_LENGTH_FOR_LEGIBILITY
                    <= String.length (clean_text text))%nat)
      by (unfold too_short in Hs; now apply Nat.ltb_ge in Hs).
    unfold writes_of.
    destruct (extract_table_from_image image) as [df|];
      [destruct (csv_ok fs)|]; cbn [record effects illegible fst snd
                                     extracted_text is_legible has_table table_data];
      (split; [intros m s H; effect_cases H; auto|]);
      (split; [intros m d H; effect_cases H; auto|]);
      (split; [|right; eauto]).
    + intros H. rewrite H. split; [simpl; auto|reflexivity].
    + discriminate.
    + intros H. rewrite H. split; [simpl; auto|reflexivity].
  - rewrite (process_page_gate_failed fs n image H). simpl.
    repeat split; try contradiction; try discriminate. now left.
Qed.

(** X19.  The table step is isolated from the text step: when the CSV write
    succeeds, the text, the legibility flag and the illegible-list entry of
    a page do not depend on what the word-level OCR returns, not even on
    whether it fails. *)
Theorem table_step_is_isolated (fs : FileSystem) (n : nat) (whole_page : result string)
        (words1 words2 : result (list OcrRow)) (is_str1 is_str2 : bool) :
  csv_ok fs = true ->
  let out1 := process_page fs n (mkPageImage whole_page words1 is_str1) in
  let out2 := process_page fs n (mkPageImage whole_page words2 is_str2) in
  extracted_text (record out1) = extracted_text (record out2) /\
  is_legible (record out1) = is_legible (record out2) /\
  illegible out1 = illegible out2.
Proof.
  intros Hcsv.
  set (image1 := mkPageImage whole_page words1 is_str1).
  set (image2 := mkPageImage whole_page words2 is_str2).
  destruct (process_page_split fs n image1) as [(text & Ht & Hs)|H].
  - rewrite (process_page_gate_passed fs n image1 text Ht Hs).
    rewrite (process_page_gate_passed fs n image2 text Ht Hs).
    unfold writes_of. rewrite Hcsv.
    destruct (extract_table_from_image image1),
             (extract_table_from_image image2); simpl; auto.
  - rewrite (process_page_gate_failed fs n image1 H).
    rewrite (process_page_gate_failed fs n image2 H).
    simpl. auto.
Qed.

Lemma page_loop_Forall (P : PageResult -> Prop) (fs : nat -> FileSystem) (n : nat)
      (pages : list PageImage) :
  (forall f m p, P (record (process_page f m p))) ->
  Forall P (map record (page_loop fs n pages)).
Proof.
  intros H. revert n. induction pages as [|p r IH]; intros n; simpl; constructor; auto.
Qed.

(** X16.  In [Tesseract_ocr.py] every record reported legible carries a text
    of at least the threshold length. *)
Theorem legible_records_have_text (fs : nat -> FileSystem) (pages : list PageImage) :
  exists df illegible_pages,
    extract_text_from_pdf fs (Pages pages) = (Some df, illegible_pages) /\
    Forall (fun r => is_legible r = true ->
                     (MIN_TEXT_LENGTH_FOR_LEGIBILITY
                      <= String.length (extracted_text r))%nat) df.
Proof.
  eexists. eexists. split; [reflexivity|]. apply page_loop_Forall.
  intros f m p.
  destruct (process_page_split f m p) as [(text & Ht & Hs)|H].
  - rewrite (process_page_gate_passed f m p text Ht Hs). simpl. intros _.
    unfold too_short in Hs. now apply Nat.ltb_ge in Hs.
  - rewrite (process_page_gate_failed f m p H). simpl. discriminate.
Qed.

(** ** ocrv1.py *)

Lemma v1_process_page_records (txt_ok : bool) (n : nat) (image : OcrV1.PageImage) :
  let out := OcrV1.process_page txt_ok n image in
  Forall (fun r => OcrV1.page_number r = n /\
                   (OcrV1.is_legible r = true ->
                    (OcrV1.MIN_TEXT_LENGTH_FOR_LEGIBILITY
                     <= String.length (OcrV1.extracted_text r))%nat) /\
                   (OcrV1.is_legible r = false -> OcrV1.extracted_text r = ""))
         (OcrV1.records out) /\
  OcrV1.illegible out
  = map OcrV1.page_number
        (List.filter (fun r => negb (OcrV1.is_legible r)) (OcrV1.records out)) /\
  (1 <= length (OcrV1.records out) <= 2)%nat /\
  (txt_ok = true -> length (OcrV1.records out) = 1%nat).
Proof.
  unfold OcrV1.process_page. destruct (OcrV1.image_to_string image) as [text|e]; simpl.
  - destruct (OcrV1.too_short (clean_text text)) eqn:Hs; simpl.
    + repeat split; auto; repeat constructor; simpl; auto; discriminate.
    + unfold OcrV1.too_short in Hs. apply Nat.ltb_ge in Hs.
      destruct txt_ok; simpl; repeat split; auto;
        repeat constructor; simpl; auto; discriminate.
  - repeat split; auto; repeat constructor; simpl; auto; discriminate.
Qed.

Lemma v1_page_loop_invariant (fs : nat -> bool) (n : nat) (pages : list OcrV1.PageImage) :
  let outcomes := OcrV1.page_loop fs n pages in
  let df := concat (map OcrV1.records outcomes) in
  Forall (fun r => (OcrV1.is_legible r = true ->
                    (OcrV1.MIN_TEXT_LENGTH_FOR_LEGIBILITY
                     <= String.length (OcrV1.extracted_text r))%nat) /\
                   (OcrV1.is_legible r = false -> OcrV1.extracted_text r = "")) df /\
  concat (map OcrV1.illegible outcomes)
  = map OcrV1.page_number (List.filter (fun r => negb (OcrV1.is_legible r)) df) /\
  (length pages <= length df <= 2 * length pages)%nat /\
  ((forall m, fs m = true) -> map OcrV1.page_number df = seq n (length pages)).
Proof.
  revert n. induction pages as [|p r IH]; intros n.
  - simpl. split; [constructor|]. split; [reflexivity|]. split; [lia|reflexivity].
  - destruct (IH (S n)) as (H1 & H2 & H3 & H4).
    destruct (v1_process_page_records (fs n) n p) as (P1 & P2 & P3 & P4).
    cbn [OcrV1.page_loop map concat]. cbv zeta. split; [|split; [|split]].
    + apply Forall_app. split; [|assumption].
      eapply Forall_impl; [exact P1|]. intros x (_ & Ha & Hb). auto.
    + rewrite List.filter_app, map_app. now rewrite P2, H2.
    + rewrite length_app. cbn [length]. lia.
    + intros Hfs. rewrite map_app, (H4 Hfs). cbn [length seq]. 
      specialize (P4 (Hfs n)).
      destruct (OcrV1.records (OcrV1.process_page (fs n) n p)) as [|x [|y l]];
        try discriminate.
      apply Forall_cons_1 in P1. destruct P1 as [(Hx & _) _]. simpl. now rewrite Hx.
Qed.

(** X21.  In [ocrv1.py] a record is legible exactly when it carries text: a
    legible record has a text of at least the threshold length and any
    other record has the empty text; the list of illegible pages is the page
    numbers of the records that are not legible. *)
Theorem v1_records_invariant (fs : nat -> bool) (pages : list OcrV1.PageImage) :
  exists df illegible_pages,
    OcrV1.extract_text_from_pdf fs (OcrV1.Pages pages) = (Some df, illegible_pages) /\
    Forall (fun r => (OcrV1.is_legible r = true ->
                      (OcrV1.MIN_TEXT_LENGTH_FOR_LEGIBILITY
                       <= String.length (OcrV1.extracted_text r))%nat) /\
                     (OcrV1.is_legible r = false -> OcrV1.extracted_text r = "")) df /\
    illegible_pages
    = map OcrV1.page_number (List.filter (fun r => negb (OcrV1.is_legible r)) df).
Proof.
  eexists. eexists. split; [reflexivity|].
  destruct (v1_page_loop_invariant fs 1 pages) as (H1 & H2 & _). auto.
Qed.

(** X22.  The summary of [ocrv1.py].  For a document without pages the
    script stops with a KeyError.  Otherwise legible and illegible counts add
    up to the total, and the total lies between the number of pages and
    twice that number (a legible page whose text file cannot be written is
    recorded twice). *)
Theorem v1_report_counts (fs : nat -> bool) (pages : list OcrV1.PageImage) :
  match pages with
  | [] => OcrV1Main.main fs (OcrV1.Pages pages) = Raised KeyError
  | _ :: _ =>
      exists r,
        OcrV1Main.main fs (OcrV1.Pages pages) = Ok (Some r) /\
        (OcrV1Main.legible_count r + OcrV1Main.illegible_count r
         = OcrV1Main.total_pages r)%nat /\
        (length pages <= OcrV1Main.total_pages r <= 2 * length pages)%nat
  end.
Proof.
  destruct pages as [|p0 ps]; [reflexivity|].
  set (pages := p0 :: ps).
  destruct (v1_page_loop_invariant fs 1 pages) as (_ & H2 & H3 & _).
  cbv zeta in H2, H3.
  exists (OcrV1Main.report
            (concat (map OcrV1.records (OcrV1.page_loop fs 1 pages)))
            (concat (map OcrV1.illegible (OcrV1.page_loop fs 1 pages)))).
  split.
  - unfold OcrV1Main.main, OcrV1.extract_text_from_pdf.
    destruct (concat (map OcrV1.records (OcrV1.page_loop fs 1 pages))) eqn:E;
      [|reflexivity].
    simpl in H3. lia.
  - unfold OcrV1Main.report.
    cbn [OcrV1Main.total_pages OcrV1Main.legible_count OcrV1Main.illegible_count].
    rewrite H2, length_map. split; [|assumption]. apply List.filter_length.
Qed.

(** X23.  When every text file can be written, [ocrv1.py] returns exactly
    one record per page, numbered 1, 2, ... in page order. *)
Theorem v1_one_record_per_page (fs : nat -> bool) (pages : list OcrV1.PageImage) :
  (forall n, fs n = true) ->
  exists df illegible_pages,
    OcrV1.extract_text_from_pdf fs (OcrV1.Pages pages) = (Some df, illegible_pages) /\
    map OcrV1.page_number df = seq 1 (length pages).
Proof.
  intros Hfs. eexists. eexists. split; [reflexivity|].
  destruct (v1_page_loop_invariant fs 1 pages) as (_ & _ & _ & H4). auto.
Qed.

(** ** ollamaocr.py *)

(** X24.  [extract_pdf_page_as_image] loads a page only at the index
    page_number - 1 and only when that index is within the document; it
    returns True only after opening, loading, rendering, saving and closing
    with the page number in range; it closes the document only after the
    image was saved; and for a page number out of range it returns False
    having done nothing but open the document. *)
Theorem extract_page_stays_in_bounds (fitz : OllamaOcr.Fitz) (page_number dpi : Z) :
  let ok := fst (OllamaOcr.extract_pdf_page_as_image fitz page_number dpi) in
  let calls := snd (OllamaOcr.extract_pdf_page_as_image fitz page_number dpi) in
  (forall i, In (OllamaOcr.LoadPage i) calls ->
     i = page_number - 1 /\
     exists len_doc, OllamaOcr.fitz_open fitz = Ok len_doc /\
                     0 <= i < Z.of_nat len_doc) /\
  (ok = true ->
   (exists len_doc, OllamaOcr.fitz_open fitz = Ok len_doc /\
                    1 <= page_number <= Z.of_nat len_doc) /\
   calls = [OllamaOcr.Open; OllamaOcr.LoadPage (page_number - 1);
            OllamaOcr.GetPixmap (inject_Z dpi / 20)%Q;
            OllamaOcr.Save; OllamaOcr.Close]) /\
  (In OllamaOcr.Close calls -> In OllamaOcr.Save calls) /\
  (forall len_doc, OllamaOcr.fitz_open fitz = Ok len_doc ->
     page_number < 1 \/ Z.of_nat len_doc < page_number ->
     ok = false /\ calls = [OllamaOcr.Open]).
Proof.
  unfold OllamaOcr.extract_pdf_page_as_image.
  destruct (OllamaOcr.fitz_open fitz) as [len_doc|e]; simpl.
  - destruct ((1 <=? page_number) && (page_number <=? Z.of_nat len_doc)) eqn:E; simpl.
    + apply andb_prop in E. destruct E as [E1 E2].
      apply Z.leb_le in E1, E2.
      destruct (OllamaOcr.load_page_ok fitz (page_number - 1)),
               (OllamaOcr.get_pixmap_ok fitz), (OllamaOcr.save_ok fitz),
               (OllamaOcr.close_ok fitz); simpl;
        (split; [intros i H; effect_cases H; split; [reflexivity|];
                 exists len_doc; split; [reflexivity|lia]|]);
        (split; [first [discriminate
                       |intros _; split;
                        [exists len_doc; split; [reflexivity|lia]|reflexivity]]|]);
        (split; [intros H; effect_cases H; auto 6|]);
        intros l [= <-]; lia.
    + apply andb_false_iff in E.
      split; [intros i H; effect_cases H|].
      split; [discriminate|].
      split; [intros H; effect_cases H|auto].
  - split; [intros i H; effect_cases H|].
    split; [discriminate|].
    split; [intros H; effect_cases H|]. intros l H. discriminate.
Qed.

(** ** Text clean-up and the gate *)

Lemma clean_text_length_le (text : string) :
  (String.length (PyStr.join " " (PyStr.split text)) <= String.length text)%nat.
Proof. apply join_split_length. Qed.

(** X11.  Cleaning never lengthens the text. *)
Theorem clean_text_never_longer (text : string) :
  (String.length (clean_text text) <= String.length text)%nat.
Proof. rewrite clean_text_join. apply clean_text_length_le. Qed.

(** X12.  A page whose raw OCR text has fewer characters than the threshold
    is illegible in both scripts, and [Tesseract_ocr.py] makes no further
    call for it. *)
Theorem short_raw_text_is_illegible (fs : FileSystem) (txt_ok : bool) (n : nat)
        (text : string) (words : result (list OcrRow)) (is_str : bool) :
  (String.length text < MIN_TEXT_LENGTH_FOR_LEGIBILITY)%nat ->
  is_legible (record (process_page fs n (mkPageImage (Ok text) words is_str))) = false /\
  effects (process_page fs n (mkPageImage (Ok text) words is_str)) = [] /\
  OcrV1.records (OcrV1.process_page txt_ok n (OcrV1.mkPageImage (Ok text)))
  = [OcrV1.mkPageResult n "" false].
Proof.
  intros H. pose proof (clean_text_length_le text) as Hl.
  assert (Hs : too_short (clean_text text) = true).
  { unfold too_short. rewrite clean_text_join. apply Nat.ltb_lt. lia. }
  rewrite process_page_too_short, v1_process_page_too_short by assumption.
  auto.
Qed.

Lemma short_raw_text_is_illegible_witness :
  is_legible (record (process_page (mkFileSystem true true) 1
                        (mkPageImage (Ok "  page   7  ") (Ok Fixtures.abcd) true)))
  = false.
Proof.
  apply (short_raw_text_is_illegible (mkFileSystem true true) true 1
           "  page   7  " (Ok Fixtures.abcd) true).
  vm_compute. lia.
Defined.

(** X13.  The cleaned text is empty exactly when the raw text consists of
    whitespace only. *)
Theorem clean_text_empty_iff_blank (text : string) :
  clean_text text = "" <-> all_space text.
Proof.
  rewrite clean_text_join, <- split_nil_iff.
  apply join_nil_iff, split_words.
Qed.

(** X14.  The cleaned text is the words of the raw text joined by single
    spaces: the trailing [.strip()] removes nothing, cleaning keeps the
    words, and cleaning a cleaned text changes nothing. *)
Theorem clean_text_normal_form (text : string) :
  clean_text text = PyStr.join " " (PyStr.split text) /\
  PyStr.split (clean_text text) = PyStr.split text /\
  clean_text (clean_text text) = clean_text text /\
  Forall is_word (PyStr.split text).
Proof.
  pose proof (split_words text) as Hw.
  assert (Hs : PyStr.split (clean_text text) = PyStr.split text)
    by (rewrite clean_text_join; now apply split_join).
  repeat split; auto.
  - apply clean_text_join.
  - rewrite (clean_text_join (clean_text text)), Hs. symmetry. apply clean_text_join.
Qed.

(** ** Witnesses *)

Lemma assigned_column_is_nearest_witness :
  exists data',
    assign_columns [0; 195] (prepare Fixtures.abcd) = Ok data' /\
    length data' = 4%nat.
Proof.
  destruct (assign_columns [0; 195] (prepare Fixtures.abcd)) as [data'|e] eqn:E;
    [|vm_compute in E; discriminate].
  exists data'. split; [reflexivity|].
  pose proof (assigned_column_is_nearest _ _ _ E) as H.
  apply Forall2_length in H. rewrite <- H. reflexivity.
Defined.

Lemma table_cells_witness :
  exists raw data',
    image_to_data Fixtures.abcd_page = Ok raw /\
    assign_columns (refine_centers (cluster (prepare raw))) (prepare raw) = Ok data' /\
    [["A"; "B"]; ["C"; "D"]]
    = map (fun bucket =>
             map (fun j => PyStr.join " " (cell_words j bucket))
                 (seq 0 (length (refine_centers (cluster (prepare raw))))))
          (segment_rows (fun b => b) data').
Proof.
  destruct (table_cells Fixtures.abcd_page
              (mkDataFrame ["Col1"; "Col2"] [["A"; "B"]; ["C"; "D"]]) eq_refl)
    as (raw & data' & H1 & H2 & _ & H4).
  exists raw, data'. auto.
Defined.

Lemma padding_adds_nothing_witness :
  rows (mkDataFrame ["Col1"; "Col2"] [["A"; "B"]; ["C"; "D"]])
  = [["A"; "B"]; ["C"; "D"]].
Proof.
  apply (padding_adds_nothing Fixtures.abcd_page _ Fixtures.abcd);
    vm_compute; reflexivity.
Defined.

Lemma rows_top_to_bottom_witness :
  chain (fun b1 b2 => first_top b1 < first_top b2)
        (segment_rows (fun b => b) (prepare Fixtures.abcd)).
Proof.
  apply rows_top_to_bottom. vm_compute. repeat constructor; discriminate.
Defined.

Lemma dropped_rows_are_ignored_witness :
  extract_table_from_image
    (mkPageImage (Ok "") (Ok ([] ++ Fixtures2.faint :: Fixtures.abcd)%list) true)
  = extract_table_from_image
      (mkPageImage (Ok "") (Ok ([] ++ Fixtures.abcd)%list) true).
Proof.
  apply dropped_rows_are_ignored. left. reflexivity.
Defined.

Lemma table_size_bounds_witness :
  (2 <= 2 <= length (accepted Fixtures.abcd))%nat /\
  (2 <= 2 <= length (accepted Fixtures.abcd))%nat.
Proof.
  apply (table_size_bounds Fixtures.abcd_page Fixtures.abcd
           (mkDataFrame ["Col1"; "Col2"] [["A"; "B"]; ["C"; "D"]]));
    vm_compute; reflexivity.
Defined.

Lemma table_step_is_isolated_witness :
  is_legible (record (process_page (mkFileSystem true true) 3
                        (mkPageImage (Ok Fixtures.text50) (Ok Fixtures.abcd) true)))
  = is_legible (record (process_page (mkFileSystem true true) 3
                          (mkPageImage (Ok Fixtures.text50)
                                       (Raised OcrEngineError) false))).
Proof.
  apply (table_step_is_isolated (mkFileSystem true true) 3 (Ok Fixtures.text50)
           (Ok Fixtures.abcd) (Raised OcrEngineError) true false).
  reflexivity.
Defined.

Lemma v1_one_record_per_page_witness :
  exists df illegible_pages,
    OcrV1.extract_text_from_pdf (fun _ => true) (OcrV1.Pages Fixtures2.v1_pages)
    = (Some df, illegible_pages) /\
    map OcrV1.page_number df = [1; 2]%nat.
Proof.
  apply (v1_one_record_per_page (fun _ => true) Fixtures2.v1_pages).
  intros n. reflexivity.
Defined.

(** ** The legibility gate and the file writes *)



